(** * CosmosDBOps: a shallow embedding of [main/database_ops.py]

    The service object [DBOps] wraps a document database with three
    collections that matter here: [patient], [models] and
    [patient-cohort].  Every method is modelled as a computation over an
    explicit database value.  A Python exception is a result of the
    computation; writes performed before the exception stay in the
    database, as they do in the document store.

    Conventions of the model
    - An [ObjectId] (and its 24-digit hexadecimal string) is a natural
      number; [ObjectId(s)] and [str(oid)] are the identity.
    - A numeric field (age, height, weight, bmi, bsa, cohort bounds) is a
      Python [int] or a Python [float]; a float is an IEEE 754 binary64
      value, NaN and the infinities included.  Python compares such
      values by their exact numeric value.
    - [math.pow] is the C library's [pow], whose last bit is not fixed by
      IEEE 754; it is a parameter of the definitions that reach it.
    - Documents are typed records: a key the code reads is always
      present, its value may be [None]. *)

From Stdlib Require Import List Ascii String ZArith NArith QArith Qround Bool Lia Lqa.
From Stdlib Require Import Sorted SpecFloat.
Import ListNotations.

Set Implicit Arguments.
Open Scope string_scope.
Open Scope list_scope.
Open Scope Z_scope.

(** ** Exceptions and the computation monad *)

Inductive exn : Type :=
| SystemExit (msg : string)
| SystemError (msg : string)
| ValueError (msg : string)
| TypeError (msg : string)
| IndexError (msg : string)
| KeyError (msg : string)
| FileNotFoundError (msg : string)
| ZeroDivisionError (msg : string)
| OverflowError (msg : string).

Inductive result (A : Type) : Type :=
| Ok (a : A)
| Raise (e : exn).

Arguments Ok {A} a.
Arguments Raise {A} e.

Definition is_ok {A} (r : result A) : bool :=
  match r with Ok _ => true | Raise _ => false end.

Definition is_ValueError (e : exn) : bool :=
  match e with ValueError _ => true | _ => false end.

Definition is_ZeroDivisionError (e : exn) : bool :=
  match e with ZeroDivisionError _ => true | _ => false end.

Definition is_OverflowError (e : exn) : bool :=
  match e with OverflowError _ => true | _ => false end.

(** Sequencing of steps that may raise. *)
Definition and_then {A B} (r : result A) (k : A -> result B) : result B :=
  match r with
  | Ok a => k a
  | Raise e => Raise e
  end.

Declare Scope result_scope.
Delimit Scope result_scope with result.
Notation "x <- r ;; k" := (and_then r (fun x => k))
  (at level 61, r at next level, right associativity) : result_scope.

(** ** Numbers

    A float is given by [spec_float] of the standard library at precision
    53 and maximal exponent 1024: signed zeros, infinities, one NaN, and
    the finite values [(-1)^s * m * 2^e].  The type also has values that
    no binary64 float takes (a mantissa of more than 53 bits); the
    statements below hold of them as well. *)

Definition float : Type := spec_float.

Definition prec : Z := 53.

Definition emax : Z := 1024.

(** What a numeric field holds. *)
Inductive num : Type :=
| NInt (z : Z)
| NFloat (f : float).

(** The exact value of a number. *)
Inductive xreal : Type :=
| XNaN
| XInf (negative : bool)
| XFin (q : Q).

Definition float_value (f : float) : xreal :=
  match f with
  | S754_zero _ => XFin 0
  | S754_infinity s => XInf s
  | S754_nan => XNaN
  | S754_finite s m e => XFin (inject_Z (cond_Zopp s (Zpos m)) * Qpower 2 e)
  end.

Definition num_value (n : num) : xreal :=
  match n with
  | NInt z => XFin (inject_Z z)
  | NFloat f => float_value f
  end.

Definition Qltb (x y : Q) : bool := negb (Qle_bool y x).

(** [a < b] and [a <= b] as Python evaluates them on ints and floats: the
    exact values are compared, and a NaN on either side gives [False]. *)
Definition xltb (a b : xreal) : bool :=
  match a, b with
  | XFin x, XFin y => Qltb x y
  | XFin _, XInf s => negb s
  | XInf s, XFin _ => s
  | XInf s, XInf t => s && negb t
  | _, _ => false
  end.

Definition xleb (a b : xreal) : bool :=
  match a, b with
  | XFin x, XFin y => Qle_bool x y
  | XFin _, XInf s => negb s
  | XInf s, XFin _ => s
  | XInf s, XInf t => s || negb t
  | _, _ => false
  end.

Definition num_ltb (a b : num) : bool := xltb (num_value a) (num_value b).

Definition num_leb (a b : num) : bool := xleb (num_value a) (num_value b).

Definition num_is_nan (a : num) : bool :=
  match num_value a with XNaN => true | _ => false end.

(** The float nearest to [n / d] (ties to even): the value of a decimal
    literal, and of the true division of two ints. *)
Definition float_of_ratio (n : Z) (d : positive) : float :=
  match n with
  | Z0 => S754_zero false
  | _ => SFdiv prec emax (S754_finite (n <? 0) (Z.to_pos (Z.abs n)) 0)
                         (S754_finite false d 0)
  end.

(** ** Documents *)

Definition ObjectId := N.

(** The [series] of a patient: absent, one label, or a list of labels. *)
Inductive series_t : Type :=
| SNone
| SStr (s : string)
| SList (l : list string).

Record internal_info_t : Type := mk_internal_info {
  internal_id : Z;
  series : series_t
}.

Record patient_doc : Type := mk_patient {
  p_id : ObjectId;
  p_internal_info : option internal_info_t;
  p_age : option num;
  p_gender : option string;
  p_height : option num;
  p_weight : option num;
  p_bmi : option num;
  p_bsa : option num;
  p_origin_location : option string;
  p_models : option ObjectId;
  p_datetime_creation : option Z
}.

(** The sub-document [{"min": ..., "max": ...}] of a cohort. *)
Record bounds : Type := mk_bounds {
  bmin : option num;
  bmax : option num
}.

Record cohort_doc : Type := mk_cohort {
  c_id : ObjectId;
  cohort_name : string;
  patient_ids : list ObjectId;
  number_patients : Z;
  c_height : bounds;
  c_weight : bounds
}.

Record model_doc : Type := mk_model {
  m_id : ObjectId;
  m_models : list string;
  m_datetime_creation : option Z
}.

(** The database: collections keep insertion order ([find_one] returns the
    first match); [next_oid] is the source of fresh ObjectIds. *)
Record DB : Type := mk_db {
  patient : list patient_doc;
  models : list model_doc;
  patient_cohort : list cohort_doc;
  next_oid : N
}.

(** State-and-exception monad over the database. *)
Definition M (A : Type) : Type := DB -> DB * result A.

Definition ret {A} (a : A) : M A := fun db => (db, Ok a).

Definition raise {A} (e : exn) : M A := fun db => (db, Raise e).

Definition bind {A B} (m : M A) (k : A -> M B) : M B :=
  fun db =>
    match m db with
    | (db', Ok a) => k a db'
    | (db', Raise e) => (db', Raise e)
    end.

Definition get_db : M DB := fun db => (db, Ok db).

Definition lift {A} (r : result A) : M A := fun db => (db, r).

Declare Scope py_scope.
Delimit Scope py_scope with py.
Notation "x <- c ;; k" := (bind c (fun x => k))
  (at level 61, c at next level, right associativity) : py_scope.
Notation "c ;;; k" := (bind c (fun _ => k))
  (at level 61, right associativity) : py_scope.
Open Scope py_scope.

(** [for x in l: body x] *)
Fixpoint for_each {A} (l : list A) (body : A -> M unit) : M unit :=
  match l with
  | [] => ret tt
  | x :: l' => body x ;;; for_each l' body
  end.

(** ** Python truthiness and equality on series *)

Definition series_truthy (s : series_t) : bool :=
  match s with
  | SNone => false
  | SStr s => negb (String.eqb s "")
  | SList l => match l with [] => false | _ => true end
  end.

Fixpoint list_string_eqb (a b : list string) : bool :=
  match a, b with
  | [], [] => true
  | x :: a', y :: b' => String.eqb x y && list_string_eqb a' b'
  | _, _ => false
  end.

Definition series_eqb (a b : series_t) : bool :=
  match a, b with
  | SNone, SNone => true
  | SStr x, SStr y => String.eqb x y
  | SList x, SList y => list_string_eqb x y
  | _, _ => false
  end.

(** ** Patient identity resolution: [DBOps.get_patient_collection] *)

(** The two filters that [to_query] sends to [patient.find]. *)
Inductive patient_filter : Type :=
| ByInternalInfo (id : Z) (s : series_t)
    (* {"internal_info": {"internal_id": id, "series": s}} *)
| ByInternalId (id : Z).
    (* {"internal_info.internal_id": id} *)

Definition patient_matches (f : patient_filter) (p : patient_doc) : bool :=
  match p_internal_info p with
  | None => false
  | Some info =>
      match f with
      | ByInternalInfo id s => (internal_id info =? id) && series_eqb (series info) s
      | ByInternalId id => internal_id info =? id
      end
  end.

Definition patient_find (db : DB) (f : patient_filter) : list patient_doc :=
  filter (patient_matches f) (patient db).

Definition to_query_filter (id : Z) (s : series_t) : patient_filter :=
  if series_truthy s then ByInternalInfo id s else ByInternalId id.

(** The inner function [to_query]: one [find], fatal when it has more
    than one hit. *)
Definition to_query (db : DB) (id : Z) (s : series_t) : result (list patient_doc) :=
  let query := patient_find db (to_query_filter id s) in
  if (1 <? List.length query)%nat
  then Raise (SystemExit "More than one patient entry found.")
  else Ok query.

(** [[series[1], series[0]]]; an IndexError when the list is too short. *)
Definition reversed_pair (l : list string) : result series_t :=
  match l with
  | s0 :: s1 :: _ => Ok (SList [s1; s0])
  | _ => Raise (IndexError "list index out of range")
  end.

(** [get_patient_collection] together with the list of filters it sent to
    the database, in order. *)
Definition get_patient_collection_traced (db : DB) (id : Z) (s : series_t)
  : list patient_filter * result (list patient_doc) :=
  match s with
  | SList l =>
      match to_query db id s with
      | Ok [] =>
          match reversed_pair l with
          | Ok s' => ([to_query_filter id s; to_query_filter id s'], to_query db id s')
          | Raise e => ([to_query_filter id s], Raise e)
          end
      | r => ([to_query_filter id s], r)
      end
  | _ => ([to_query_filter id s], to_query db id s)
  end.

Definition get_patient_collection (db : DB) (id : Z) (s : series_t)
  : result (list patient_doc) :=
  snd (get_patient_collection_traced db id s).

(** ** Collection primitives of the document store *)

(** [coll.find_one(filter)]: the first document that matches. *)
Definition find_one {A} (p : A -> bool) (coll : list A) : option A :=
  List.find p coll.

(** [coll.update_one(filter, update)]: only the first match is updated; no
    match is not an error. *)
Fixpoint update_one {A} (p : A -> bool) (f : A -> A) (coll : list A) : list A :=
  match coll with
  | [] => []
  | d :: coll' => if p d then f d :: coll' else d :: update_one p f coll'
  end.

(** [coll.update_many(filter, update)]: every match is updated. *)
Definition update_many {A} (p : A -> bool) (f : A -> A) (coll : list A) : list A :=
  map (fun d => if p d then f d else d) coll.

Definition cohort_has_id (cid : ObjectId) (c : cohort_doc) : bool := N.eqb (c_id c) cid.

Definition patient_has_id (pid : ObjectId) (p : patient_doc) : bool := N.eqb (p_id p) pid.

Definition cohort_find_one (db : DB) (cid : ObjectId) : option cohort_doc :=
  find_one (cohort_has_id cid) (patient_cohort db).

Definition patient_find_one (db : DB) (pid : ObjectId) : option patient_doc :=
  find_one (patient_has_id pid) (patient db).

Definition cohort_update_one (cid : ObjectId) (f : cohort_doc -> cohort_doc) : M unit :=
  fun db =>
    (mk_db (patient db) (models db)
           (update_one (cohort_has_id cid) f (patient_cohort db)) (next_oid db),
     Ok tt).

Definition patient_update_many (flt : patient_filter) (f : patient_doc -> patient_doc)
  : M unit :=
  fun db =>
    (mk_db (update_many (patient_matches flt) f (patient db)) (models db)
           (patient_cohort db) (next_oid db),
     Ok tt).

(** [{"$addToSet": {field: {"$each": xs}}}]: each value is appended unless
    the array already holds it; elements already in the array are left as
    they are. *)
Definition add_to_set (arr xs : list ObjectId) : list ObjectId :=
  fold_left (fun acc x => if existsb (N.eqb x) acc then acc else acc ++ [x]) xs arr.

Definition none_type_error : exn := TypeError "'NoneType' object is not subscriptable".

(** ** Cohort dimension aggregation *)

Definition set_patient_ids (ids : list ObjectId) (c : cohort_doc) : cohort_doc :=
  mk_cohort (c_id c) (cohort_name c) ids (number_patients c) (c_height c) (c_weight c).

Definition set_number_patients (n : Z) (c : cohort_doc) : cohort_doc :=
  mk_cohort (c_id c) (cohort_name c) (patient_ids c) n (c_height c) (c_weight c).

Definition set_dimensions (h w : bounds) (c : cohort_doc) : cohort_doc :=
  mk_cohort (c_id c) (cohort_name c) (patient_ids c) (number_patients c)
            (mk_bounds (bmin h) (bmax h)) (mk_bounds (bmin w) (bmax w)).

(** The body of [for i in ["height", "weight"]] for one field: [b] is
    [cohort_doc[i]], [v] is [patient_doc[i]].  The three tests are an
    [if]/[elif]/[elif] chain, so at most one of them fires. *)
Definition update_bounds (b : bounds) (v : option num) : bounds :=
  match v with
  | None => b
  | Some x =>
      if match bmin b with Some m => num_ltb x m | None => false end
      then mk_bounds (Some x) (bmax b)
      else if match bmax b with Some mx => num_ltb mx x | None => false end
      then mk_bounds (bmin b) (Some x)
      else match bmin b, bmax b with
           | None, None => mk_bounds (Some x) (Some x)
           | _, _ => b
           end
  end.

(** The loop [for id_ in patient_ids] over the local copy of the cohort's
    height and weight.  A patient id with no document makes
    [patient_doc] [None]; whichever test is evaluated first then
    subscripts it, a TypeError. *)
Fixpoint scan_patients (db : DB) (ids : list ObjectId) (h w : bounds)
  : result (bounds * bounds) :=
  match ids with
  | [] => Ok (h, w)
  | id_ :: ids' =>
      match patient_find_one db id_ with
      | None => Raise none_type_error
      | Some patient_doc =>
          scan_patients db ids'
            (update_bounds h (p_height patient_doc))
            (update_bounds w (p_weight patient_doc))
      end
  end.

Definition _update_max_min_patient_dimensions_in_cohort
  (cohort_id : ObjectId) (ids : list ObjectId) : M unit :=
  db <- get_db ;;
  match cohort_find_one db cohort_id with
  | None => raise none_type_error
  | Some cohort_doc =>
      hw <- lift (scan_patients db ids (c_height cohort_doc) (c_weight cohort_doc)) ;;
      cohort_update_one cohort_id (set_dimensions (fst hw) (snd hw))
  end.

Definition add_patients_to_cohort (cohort_id : ObjectId) (ids : list ObjectId)
  : M (list ObjectId) :=
  cohort_update_one cohort_id
    (fun c => set_patient_ids (add_to_set (patient_ids c) ids) c) ;;;
  db <- get_db ;;
  match cohort_find_one db cohort_id with
  | None => raise none_type_error
  | Some c =>
      cohort_update_one cohort_id
        (set_number_patients (Z.of_nat (List.length (patient_ids c)))) ;;;
      _update_max_min_patient_dimensions_in_cohort cohort_id ids ;;;
      db' <- get_db ;;
      match cohort_find_one db' cohort_id with
      | None => raise none_type_error
      | Some c' => ret (patient_ids c')
      end
  end.

Definition set_max_min_patient_dimensions_in_cohort (cohort_id : ObjectId)
  : M (option cohort_doc) :=
  db <- get_db ;;
  match cohort_find_one db cohort_id with
  | None => raise none_type_error
  | Some cohort_doc =>
      hw <- lift (scan_patients db (patient_ids cohort_doc)
                    (c_height cohort_doc) (c_weight cohort_doc)) ;;
      cohort_update_one cohort_id (set_dimensions (fst hw) (snd hw)) ;;;
      db' <- get_db ;;
      ret (cohort_find_one db' cohort_id)
  end.

(** ** Derived metrics: [main/utilities/utils.py]

    The arithmetic is CPython's on ints and binary64 floats.  Ints are
    exact.  [/] on two ints is the correctly rounded quotient.  An int
    that meets a float is converted first, and an int beyond the float
    range is an OverflowError.  [*], [/] and [math.sqrt] on floats are
    the IEEE 754 operations, and a zero divisor is a ZeroDivisionError.
    [round(x, 2)] is the float nearest to the two-digit decimal nearest
    to [x], ties to even. *)

Definition float_is_nan (f : float) : bool :=
  match f with S754_nan => true | _ => false end.

Definition float_is_zero (f : float) : bool :=
  match f with S754_zero _ => true | _ => false end.

(** [float(z)] *)
Definition float_of_int (z : Z) : result float :=
  match binary_normalize prec emax z 0 false with
  | S754_infinity _ => Raise (OverflowError "int too large to convert to float")
  | f => Ok f
  end.

Definition to_float (a : num) : result float :=
  match a with
  | NInt z => float_of_int z
  | NFloat f => Ok f
  end.

(** [a / b] on two ints. *)
Definition int_true_div (a b : Z) : result float :=
  match a, b with
  | _, Z0 => Raise (ZeroDivisionError "division by zero")
  | Z0, _ => Ok (S754_zero (b <? 0))
  | _, _ =>
      match SFdiv prec emax (S754_finite (a <? 0) (Z.to_pos (Z.abs a)) 0)
                            (S754_finite (b <? 0) (Z.to_pos (Z.abs b)) 0) with
      | S754_infinity _ =>
          Raise (OverflowError "integer division result too large for a float")
      | f => Ok f
      end
  end.

(** [a / b] *)
Definition num_div (a b : num) : result float :=
  match a, b with
  | NInt x, NInt y => int_true_div x y
  | _, _ =>
      (fa <- to_float a ;;
       fb <- to_float b ;;
       if float_is_zero fb
       then Raise (ZeroDivisionError "float division by zero")
       else Ok (SFdiv prec emax fa fb))%result
  end.

(** [a * b] *)
Definition num_mul (a b : num) : result num :=
  match a, b with
  | NInt x, NInt y => Ok (NInt (x * y))
  | _, _ =>
      (fa <- to_float a ;;
       fb <- to_float b ;;
       Ok (NFloat (SFmul prec emax fa fb)))%result
  end.

(** [math.sqrt(x)]: a NaN made from an argument that is not one is a
    ValueError. *)
Definition math_sqrt (x : float) : result float :=
  let r := SFsqrt prec emax x in
  if float_is_nan r && negb (float_is_nan x)
  then Raise (ValueError "math domain error")
  else Ok r.

Definition round_half_even (q : Q) : Z :=
  let f := Qfloor q in
  match Qcompare (q - inject_Z f)%Q (1 # 2)%Q with
  | Lt => f
  | Gt => f + 1
  | Eq => if Z.even f then f else f + 1
  end.

(** [round(x, 2)]: zeros, infinities and NaN round to themselves; the
    sign of [x] is kept when the result is zero. *)
Definition round2 (x : float) : float :=
  match x with
  | S754_finite s m e =>
      match round_half_even (inject_Z (Zpos m) * Qpower 2 e * 100)%Q with
      | Zpos k => SFdiv prec emax (S754_finite s k 0) (S754_finite false 100 0)
      | _ => S754_zero s
      end
  | _ => x
  end.

(** The float [2.0]. *)
Definition float_two : float := Eval vm_compute in binary_normalize prec emax 2 0 false.

Section Platform.

(** [math.pow(x, y)] on two floats: the value, or the exception, that
    CPython makes of the C library's [pow].  The library need not round
    correctly: glibc 2.36 gives 0.0015760899999999998 for
    [pow(0.0397, 2.0)], one unit in the last place below the float
    nearest to the square. *)
Variable math_pow : float -> float -> result float.

Definition calculate_bmi (weight height : option num) : result (option num) :=
  match weight, height with
  | Some w, Some h =>
      (x <- num_div h (NInt 100) ;;
       d <- math_pow x float_two ;;
       q <- num_div w (NFloat d) ;;
       let bmi := round2 q in
       if float_is_nan bmi then Ok None else Ok (Some (NFloat bmi)))%result
  | _, _ => Ok None
  end.

End Platform.

Definition calculate_mosteller_bsa (weight height : option num) : result (option num) :=
  match weight, height with
  | Some w, Some h =>
      (p <- num_mul w h ;;
       x <- num_div p (NInt 3600) ;;
       r <- math_sqrt x ;;
       let bsa := round2 r in
       if float_is_nan bsa then Ok None else Ok (Some (NFloat bsa)))%result
  | _, _ => Ok None
  end.

(** An instance of [math.pow] for the exponent 2, the only one the code
    passes: the correctly rounded square, an OverflowError when a finite
    argument has a square beyond the float range. *)
Definition square_pow (x y : float) : result float :=
  match SFmul prec emax x x with
  | S754_infinity _ =>
      match x with
      | S754_infinity _ => Ok (S754_infinity false)
      | _ => Raise (OverflowError "math range error")
      end
  | r => Ok r
  end.

(** ** Demographic update: [DBOps.update_human_demographics] *)

(** A keyword argument as the caller supplies it.  [PyNone] is also what
    [kwargs.get] gives for a keyword that was not passed. *)
Inductive pyval : Type :=
| PyNone
| PyInt (z : Z)
| PyFloat (f : float)
| PyStr (s : string)
| PyOther.

Record demographics : Type := mk_demographics {
  kw_age : pyval;
  kw_gender : pyval;
  kw_height : pyval;
  kw_weight : pyval;
  kw_loc : pyval
}.

Definition is_none (v : pyval) : bool :=
  match v with PyNone => true | _ => false end.

(** [isinstance(v, (int, float))] *)
Definition isinstance_int_float (v : pyval) : bool :=
  match v with PyInt _ | PyFloat _ => true | _ => false end.

(** [v in range(0, 121)]: an int between the ends, or a float equal to
    one of them ([45.0 == 45]); NaN and the infinities equal none. *)
Definition in_range_0_121 (v : pyval) : bool :=
  match v with
  | PyInt z => (0 <=? z) && (z <? 121)
  | PyFloat f =>
      match float_value f with
      | XFin q =>
          Qeq_bool q (inject_Z (Qfloor q)) && (0 <=? Qfloor q) && (Qfloor q <? 121)
      | _ => false
      end
  | _ => false
  end.

(** [v in [s1; ...]] for a list of string literals. *)
Definition in_strings (v : pyval) (l : list string) : bool :=
  match v with
  | PyStr s => existsb (String.eqb s) l
  | _ => false
  end.

(** Truthiness, [if v:]; a float is falsy when it is a zero, so NaN is
    truthy.  [PyOther] is never tested: every test of the method sits
    behind a check that rejects it. *)
Definition truthy (v : pyval) : bool :=
  match v with
  | PyNone => false
  | PyInt z => negb (z =? 0)
  | PyFloat f => negb (float_is_zero f)
  | PyStr s => negb (String.eqb s "")
  | PyOther => true
  end.

Definition num_of (v : pyval) : option num :=
  match v with
  | PyInt z => Some (NInt z)
  | PyFloat f => Some (NFloat f)
  | _ => None
  end.


Definition str_of (v : pyval) : option string :=
  match v with PyStr s => Some s | _ => None end.

Definition set_age (v : option num) (p : patient_doc) : patient_doc :=
  mk_patient (p_id p) (p_internal_info p) v (p_gender p) (p_height p) (p_weight p)
             (p_bmi p) (p_bsa p) (p_origin_location p) (p_models p)
             (p_datetime_creation p).

Definition set_gender (v : option string) (p : patient_doc) : patient_doc :=
  mk_patient (p_id p) (p_internal_info p) (p_age p) v (p_height p) (p_weight p)
             (p_bmi p) (p_bsa p) (p_origin_location p) (p_models p)
             (p_datetime_creation p).

Definition set_height (v : option num) (p : patient_doc) : patient_doc :=
  mk_patient (p_id p) (p_internal_info p) (p_age p) (p_gender p) v (p_weight p)
             (p_bmi p) (p_bsa p) (p_origin_location p) (p_models p)
             (p_datetime_creation p).

Definition set_weight (v : option num) (p : patient_doc) : patient_doc :=
  mk_patient (p_id p) (p_internal_info p) (p_age p) (p_gender p) (p_height p) v
             (p_bmi p) (p_bsa p) (p_origin_location p) (p_models p)
             (p_datetime_creation p).

Definition set_bmi (v : option num) (p : patient_doc) : patient_doc :=
  mk_patient (p_id p) (p_internal_info p) (p_age p) (p_gender p) (p_height p)
             (p_weight p) v (p_bsa p) (p_origin_location p) (p_models p)
             (p_datetime_creation p).

Definition set_bsa (v : option num) (p : patient_doc) : patient_doc :=
  mk_patient (p_id p) (p_internal_info p) (p_age p) (p_gender p) (p_height p)
             (p_weight p) (p_bmi p) v (p_origin_location p) (p_models p)
             (p_datetime_creation p).

Definition set_origin_location (v : option string) (p : patient_doc) : patient_doc :=
  mk_patient (p_id p) (p_internal_info p) (p_age p) (p_gender p) (p_height p)
             (p_weight p) (p_bmi p) (p_bsa p) v (p_models p)
             (p_datetime_creation p).

Definition when (b : bool) (m : M unit) : M unit := if b then m else ret tt.

(** [self.database.patient.find_one({"internal_info.internal_id": id},
    {field})[field]] *)
Definition stored_field {A} (id : Z) (field : patient_doc -> option A) : M (option A) :=
  db <- get_db ;;
  match find_one (patient_matches (ByInternalId id)) (patient db) with
  | None => raise none_type_error
  | Some p => ret (field p)
  end.

Section DemographicUpdate.

Variable math_pow : float -> float -> result float.

(** The two writes that follow a height or weight update when the
    companion field is stored. *)
Definition recompute_bmi_bsa (id : Z) (weight height : option num) : M unit :=
  bmi <- lift (calculate_bmi math_pow weight height) ;;
  bsa <- lift (calculate_mosteller_bsa weight height) ;;
  patient_update_many (ByInternalId id) (set_bmi bmi) ;;;
  patient_update_many (ByInternalId id) (set_bsa bsa).

Definition origin_locations : list string :=
  ["europe"; "asia_pacific"; "north_south_america"; "middle_east_africa"].

Definition update_human_demographics (id : Z) (kw : demographics) : M unit :=
  let age := kw_age kw in
  let gender := kw_gender kw in
  let height := kw_height kw in
  let weight := kw_weight kw in
  let origin_location := kw_loc kw in
  when (negb (isinstance_int_float age) && negb (is_none age))
    (raise (ValueError "Age must be an integer or float.")) ;;;
  when (negb (in_range_0_121 age) && negb (is_none age))
    (raise (ValueError "Age not inside the valid range.")) ;;;
  when (truthy age)
    (patient_update_many (ByInternalId id) (set_age (num_of age))) ;;;
  when (negb (in_strings gender ["male"; "female"]) && negb (is_none gender))
    (raise (ValueError "Gender not male/female.")) ;;;
  when (truthy gender)
    (patient_update_many (ByInternalId id) (set_gender (str_of gender))) ;;;
  for_each [height; weight] (fun i =>
    when (negb (isinstance_int_float i) && negb (is_none i))
      (raise (ValueError "Height/weight must be an integer or float."))) ;;;
  when (truthy height)
    (patient_update_many (ByInternalId id) (set_height (num_of height)) ;;;
     check_weight <- stored_field id p_weight ;;
     match check_weight with
     | Some _ => recompute_bmi_bsa id check_weight (num_of height)
     | None => ret tt
     end) ;;;
  when (truthy weight)
    (patient_update_many (ByInternalId id) (set_weight (num_of weight)) ;;;
     check_height <- stored_field id p_height ;;
     match check_height with
     | Some _ => recompute_bmi_bsa id (num_of weight) check_height
     | None => ret tt
     end) ;;;
  when (negb (in_strings origin_location origin_locations)
        && negb (is_none origin_location))
    (raise (ValueError "Origin location not in the accepted values/format.")) ;;;
  when (truthy origin_location)
    (patient_update_many (ByInternalId id)
       (set_origin_location (str_of origin_location))).

End DemographicUpdate.

(** ** Batch ingestion: [DBOps.upload_patients] *)

(** What [json.load] gives for a [patient_collection.json]. *)
Record patient_file : Type := mk_patient_file {
  f_internal_info : option internal_info_t;
  f_age : option num;
  f_gender : option string;
  f_height : option num;
  f_weight : option num;
  f_bmi : option num;
  f_bsa : option num;
  f_origin_location : option string
}.

(** A directory [jsondir/<human>/<series>]: the two files the loader
    reads, each present or not. *)
Record series_dir : Type := mk_series_dir {
  sd_patient : option patient_file;
  sd_model : option (list string)
}.

(** A directory [jsondir/<human>]: its own two files and its
    sub-directories by name. *)
Record human_dir : Type := mk_human_dir {
  hd_patient : option patient_file;
  hd_model : option (list string);
  hd_subdirs : list (string * series_dir)
}.

(** The tree under [jsondir], by human id ([f"{int(human):05}"] is
    injective); [None] when the directory does not exist. *)
Definition jsondir_t : Type := Z -> option human_dir.

Fixpoint lookup_subdir (name : string) (l : list (string * series_dir))
  : option series_dir :=
  match l with
  | [] => None
  | (n, d) :: l' => if String.eqb n name then Some d else lookup_subdir name l'
  end.

(** The pair of files at [jsondir/<human>/] (flat layout). *)
Definition flat_files (jsondir : jsondir_t) (human : Z)
  : option patient_file * option (list string) :=
  match jsondir human with
  | None => (None, None)
  | Some d => (hd_patient d, hd_model d)
  end.

(** The pair of files at [os.path.join(jsondir, <human>, series)].  The
    join needs a string; an empty component is dropped by the join, which
    leads back to the flat layout. *)
Definition series_files (jsondir : jsondir_t) (human : Z) (s : series_t)
  : result (option patient_file * option (list string)) :=
  match s with
  | SStr name =>
      if String.eqb name "" then Ok (flat_files jsondir human)
      else match jsondir human with
           | None => Ok (None, None)
           | Some d =>
               match lookup_subdir name (hd_subdirs d) with
               | None => Ok (None, None)
               | Some sd => Ok (sd_patient sd, sd_model sd)
               end
           end
  | _ => Raise (TypeError "expected str, bytes or os.PathLike object")
  end.

Definition patient_files (jsondir : jsondir_t) (flat : bool) (human : Z) (s : series_t)
  : result (option patient_file * option (list string)) :=
  if flat then Ok (flat_files jsondir human) else series_files jsondir human s.

(** The block under [if internal_id_list:] that builds [patients_list]
    from the [patient_collection.json] of each human. *)
Fixpoint patients_of_internal_ids (jsondir : jsondir_t) (ids : list Z)
  : result (list (Z * series_t)) :=
  match ids with
  | [] => Ok []
  | i :: ids' =>
      match jsondir i with
      | None => Raise (FileNotFoundError "jsondir/human_id")
      | Some d =>
          match hd_subdirs d with
          | _ :: _ => Raise (SystemError "Directories where found. Provide patients_list.")
          | [] =>
              match hd_patient d with
              | None => Raise (FileNotFoundError "patient_collection.json")
              | Some patient_dict =>
                  match f_internal_info patient_dict with
                  | None => Raise (KeyError "internal_info")
                  | Some info =>
                      match patients_of_internal_ids jsondir ids' with
                      | Ok rest => Ok ((i, series info) :: rest)
                      | Raise e => Raise e
                      end
                  end
              end
          end
      end
  end.

Definition nonempty {A} (l : list A) : bool :=
  match l with [] => false | _ => true end.

(** [self.get_patient_collection(human, series)] as a step of a method. *)
Definition get_patient_collection_m (human : Z) (s : series_t) : M (list patient_doc) :=
  db <- get_db ;;
  lift (get_patient_collection db human s).

(** First loop: nothing is written; the first entry that is already in
    the database, or whose files are missing, stops the call. *)
Definition validate_patient (jsondir : jsondir_t) (flat : bool) (entry : Z * series_t)
  : M unit :=
  let (human, s) := entry in
  found <- get_patient_collection_m human s ;;
  when (nonempty found)
    (raise (SystemExit "Patient already present in the database.")) ;;;
  files <- lift (patient_files jsondir flat human s) ;;
  match fst files with
  | None => raise (FileNotFoundError "patient_collection.json")
  | Some _ =>
      match snd files with
      | None => raise (FileNotFoundError "model_collection.json")
      | Some _ => ret tt
      end
  end.

Definition insert_model (m : list string) (now : Z) : M ObjectId :=
  fun db =>
    let oid := next_oid db in
    (mk_db (patient db) (models db ++ [mk_model oid m (Some now)])
           (patient_cohort db) (N.succ oid),
     Ok oid).

Definition insert_patient (f : patient_file) (model_id : ObjectId) (now : Z) : M ObjectId :=
  fun db =>
    let oid := next_oid db in
    (mk_db (patient db ++
              [mk_patient oid (f_internal_info f) (f_age f) (f_gender f) (f_height f)
                 (f_weight f) (f_bmi f) (f_bsa f) (f_origin_location f)
                 (Some model_id) (Some now)])
           (models db) (patient_cohort db) (N.succ oid),
     Ok oid).

(** Second loop, one entry: the look-up is repeated, then the model
    document and the patient document are inserted. *)
Definition upload_patient (jsondir : jsondir_t) (flat : bool) (now : Z)
  (entry : Z * series_t) : M ObjectId :=
  let (human, s) := entry in
  found <- get_patient_collection_m human s ;;
  if nonempty found
  then raise (SystemExit "Patient already present in the database.")
  else
    files <- lift (patient_files jsondir flat human s) ;;
    match snd files with
    | None => raise (FileNotFoundError "model_collection.json")
    | Some model_dict =>
        model_id <- insert_model model_dict now ;;
        match fst files with
        | None => raise (FileNotFoundError "patient_collection.json")
        | Some pat_dict =>
            insert_patient pat_dict model_id now
        end
    end.

Fixpoint upload_all (jsondir : jsondir_t) (flat : bool) (now : Z)
  (l : list (Z * series_t)) : M (list ObjectId) :=
  match l with
  | [] => ret []
  | entry :: l' =>
      patient_id <- upload_patient jsondir flat now entry ;;
      pat_ids <- upload_all jsondir flat now l' ;;
      ret (patient_id :: pat_ids)
  end.

Definition upload_patients (jsondir : jsondir_t) (now : Z)
  (patients_list : option (list (Z * series_t))) (internal_id_list : option (list Z))
  : M (list ObjectId) :=
  match patients_list, internal_id_list with
  | None, None => raise (SystemError "Provide patient list or internal id list.")
  | Some _, Some _ =>
      raise (SystemError "Either patient list or internal id list can be defined.")
  | _, _ =>
      let flat := match internal_id_list with Some l => nonempty l | None => false end in
      patients_list' <-
        (if flat
         then l <- lift (patients_of_internal_ids jsondir
                           (match internal_id_list with Some l => l | None => [] end)) ;;
              ret (Some l)
         else ret patients_list) ;;
      match patients_list' with
      | None => raise (TypeError "'NoneType' object is not iterable")
      | Some l =>
          for_each l (validate_patient jsondir flat) ;;;
          upload_all jsondir flat now l
      end
  end.

(** ** Model documents: [get_patient_model_collection],
    [get_patient_model_list], [update_patient_model_list] *)

(** [query[0]] on the list a look-up returned. *)
Definition first_patient (query : list patient_doc) : result patient_doc :=
  match query with
  | [] => Raise (IndexError "list index out of range")
  | p :: _ => Ok p
  end.

(** The filter [{"_id": ObjectId(models_id)}].  [ObjectId(None)] makes a
    new identifier, which no stored document carries. *)
Definition model_has_id (models_id : option ObjectId) (m : model_doc) : bool :=
  match models_id with
  | Some i => N.eqb (m_id m) i
  | None => false
  end.

Definition models_find_one (db : DB) (models_id : option ObjectId) : option model_doc :=
  find_one (model_has_id models_id) (models db).

Definition get_patient_model_collection (db : DB) (id : Z) (s : series_t)
  : result (option model_doc) :=
  match get_patient_collection db id s with
  | Raise e => Raise e
  | Ok query =>
      match first_patient query with
      | Raise e => Raise e
      | Ok p => Ok (models_find_one db (p_models p))
      end
  end.

(** [self.get_patient_model_collection(internal_id, series)["models"]] *)
Definition get_patient_model_list (db : DB) (id : Z) (s : series_t)
  : result (list string) :=
  match get_patient_model_collection db id s with
  | Raise e => Raise e
  | Ok None => Raise none_type_error
  | Ok (Some m) => Ok (m_models m)
  end.

Definition set_models (l : list string) (m : model_doc) : model_doc :=
  mk_model (m_id m) l (m_datetime_creation m).

(** [models.find_one_and_update(filter, update)]: as [update_one], the
    first match only; the returned document is not used by the callers. *)
Definition models_update_one (models_id : option ObjectId) (f : model_doc -> model_doc)
  : M unit :=
  fun db =>
    (mk_db (patient db) (update_one (model_has_id models_id) f (models db))
           (patient_cohort db) (next_oid db),
     Ok tt).

Definition update_patient_model_list (id : Z) (models_list : list string) (s : series_t)
  : M (option model_doc) :=
  found <- get_patient_collection_m id s ;;
  query <- lift (first_patient found) ;;
  models_update_one (p_models query) (set_models models_list) ;;;
  db <- get_db ;;
  ret (models_find_one db (p_models query)).

(** ** [DBOps.get_patient_cohort] *)

(** The method returns a list (by name), a document or [None] (by id), or
    [None] (nothing usable supplied). *)
Inductive cohort_answer : Type :=
| CohortList (l : list cohort_doc)
| CohortDoc (c : option cohort_doc).

Definition cohort_has_name (n : string) (c : cohort_doc) : bool :=
  String.eqb (cohort_name c) n.

Definition get_patient_cohort (db : DB)
  (cohort_name_kw : option string) (cohort_id_kw : option ObjectId)
  : result cohort_answer :=
  match cohort_name_kw, cohort_id_kw with
  | Some _, Some _ =>
      Raise (SystemExit "Provide either the cohort name or the cohort id.")
  | Some n, None =>
      if negb (String.eqb n "")
      then Ok (CohortList (filter (cohort_has_name n) (patient_cohort db)))
      else Ok (CohortDoc None)
  | None, Some cid => Ok (CohortDoc (cohort_find_one db cid))
  | None, None => Ok (CohortDoc None)
  end.

(** ** [DBOps.upload_patients_add_to_cohort] *)

Definition upload_patients_add_to_cohort (jsondir : jsondir_t) (now : Z)
  (cohort_id : ObjectId)
  (patients_list : option (list (Z * series_t))) (internal_id_list : option (list Z))
  : M (option cohort_doc) :=
  match patients_list, internal_id_list with
  | None, None => raise (SystemError "Provide patient list or internal id list.")
  | Some _, Some _ =>
      raise (SystemError "Either patient list or internal id list can be defined.")
  | _, _ =>
      pat_ids <-
        (if match internal_id_list with Some l => nonempty l | None => false end
         then upload_patients jsondir now None internal_id_list
         else upload_patients jsondir now patients_list None) ;;
      add_patients_to_cohort cohort_id pat_ids ;;;
      db <- get_db ;;
      ret (cohort_find_one db cohort_id)
  end.

(** ** [DBOps.get_all_patients_patientcoll] *)

(** [patients[k] = v] on a dict kept as the list of its items in insertion
    order: an existing key keeps its place and takes the new value. *)
Fixpoint dict_set (k : Z) (v : series_t) (d : list (Z * series_t))
  : list (Z * series_t) :=
  match d with
  | [] => [(k, v)]
  | (k', v') :: d' =>
      if k' =? k then (k, v) :: d' else (k', v') :: dict_set k v d'
  end.

Fixpoint dict_get (k : Z) (d : list (Z * series_t)) : option series_t :=
  match d with
  | [] => None
  | (k', v) :: d' => if k' =? k then Some v else dict_get k d'
  end.

(** The loop [for i in docs]: documents without ["internal_info"] are
    skipped. *)
Definition collect_patients (docs : list patient_doc) : list (Z * series_t) :=
  fold_left
    (fun patients i =>
       match p_internal_info i with
       | Some info => dict_set (internal_id info) (series info) patients
       | None => patients
       end)
    docs [].

(** [sorted(patients.items())]: the keys of a dict are distinct, so the
    order of two items is the order of their keys. *)
Fixpoint insert_item (kv : Z * series_t) (l : list (Z * series_t))
  : list (Z * series_t) :=
  match l with
  | [] => [kv]
  | kv' :: l' =>
      if fst kv <=? fst kv' then kv :: kv' :: l' else kv' :: insert_item kv l'
  end.

Definition sorted_items (d : list (Z * series_t)) : list (Z * series_t) :=
  fold_right insert_item [] d.

Definition get_all_patients_patientcoll (db : DB) : list (Z * series_t) :=
  sorted_items (collect_patients (patient db)).

(** ** Entries of a models document: [append_blobs_to_submodel],
    [append_landmarks_to_model], [utils.fcsv2list]

    In [model_doc] the entries of the ["models"] list are opaque labels.
    The two appending methods look inside them, so for these methods the
    models collection is given with its entries spelled out; the patient
    look-up still runs on the database. *)

Record sub_model : Type := mk_sub_model {
  blob : string;
  sm_name : string
}.

Record landmark : Type := mk_landmark {
  lm_name : string;
  lm_value : list (list Q);
  lm_description : string;
  lm_type_of_spline : string
}.

Record model_entry : Type := mk_model_entry {
  timestamp : Q;
  sub_models : list sub_model;
  landmarks : list landmark
}.

Record models_doc : Type := mk_models_doc {
  md_id : ObjectId;
  md_models : list model_entry
}.

Definition models_doc_has_id (models_id : option ObjectId) (m : models_doc) : bool :=
  match models_id with
  | Some i => N.eqb (md_id m) i
  | None => false
  end.

Definition set_md_models (l : list model_entry) (m : models_doc) : models_doc :=
  mk_models_doc (md_id m) l.

(** The loop of [append_blobs_to_submodel] over [model_dict["models"]]. *)
Definition extend_sub_models (ts : Q) (blobs : list sub_model) (l : list model_entry)
  : list model_entry :=
  map (fun i => if Qeq_bool (timestamp i) ts
                then mk_model_entry (timestamp i) (sub_models i ++ blobs) (landmarks i)
                else i) l.

(** The loop of [append_landmarks_to_model]. *)
Definition append_landmark (ts : Q) (lm : landmark) (l : list model_entry)
  : list model_entry :=
  map (fun i => if Qeq_bool (timestamp i) ts
                then mk_model_entry (timestamp i) (sub_models i) (landmarks i ++ [lm])
                else i) l.

(** What the two methods share: resolve the patient, read its models
    document, rewrite the list of entries, write it back, read it again. *)
Definition rewrite_entries (db : DB) (id : Z) (s : series_t)
  (f : list model_entry -> list model_entry) (coll : list models_doc)
  : list models_doc * result (option models_doc) :=
  match get_patient_collection db id s with
  | Raise e => (coll, Raise e)
  | Ok query =>
      match first_patient query with
      | Raise e => (coll, Raise e)
      | Ok p =>
          let models_id := p_models p in
          match find_one (models_doc_has_id models_id) coll with
          | None => (coll, Raise none_type_error)
          | Some model_dict =>
              let coll' :=
                update_one (models_doc_has_id models_id)
                           (set_md_models (f (md_models model_dict))) coll in
              (coll', Ok (find_one (models_doc_has_id models_id) coll'))
          end
      end
  end.

Definition append_blobs_to_submodel (db : DB) (id : Z) (ts : Q)
  (blobs : list sub_model) (s : series_t) (coll : list models_doc)
  : list models_doc * result (option models_doc) :=
  rewrite_entries db id s (extend_sub_models ts blobs) coll.

Section Fcsv.

(** [float(i)]: [None] stands for the ValueError of a text that is not a
    number. *)
Variable float_of_string : string -> option Q.

(** [c.isdigit()] on the ASCII digits. *)
Definition is_digit (c : Ascii.ascii) : bool :=
  ((48 <=? Ascii.nat_of_ascii c) && (Ascii.nat_of_ascii c <=? 57))%nat.

(** [x.split(",")] *)
Fixpoint split_comma (x : string) : list string :=
  match x with
  | EmptyString => [EmptyString]
  | String c x' =>
      if Ascii.eqb c ","%char
      then EmptyString :: split_comma x'
      else match split_comma x' with
           | field :: fields => String c field :: fields
           | [] => [String c EmptyString]
           end
  end.

(** [[float(i) for i in fields]] *)
Fixpoint floats (fields : list string) : result (list Q) :=
  match fields with
  | [] => Ok []
  | i :: fields' =>
      match float_of_string i with
      | None => Raise (ValueError "could not convert string to float")
      | Some q =>
          match floats fields' with
          | Ok qs => Ok (q :: qs)
          | Raise e => Raise e
          end
      end
  end.

(** [fcsv2list] on the lines of the file. *)
Fixpoint fcsv2list (lines : list string) : result (list (list Q)) :=
  match lines with
  | [] => Ok []
  | x :: lines' =>
      match x with
      | EmptyString => Raise (IndexError "string index out of range")
      | String c _ =>
          if is_digit c
          then match floats (firstn 3 (skipn 1 (split_comma x))) with
               | Raise e => Raise e
               | Ok point =>
                   match fcsv2list lines' with
                   | Ok points => Ok (point :: points)
                   | Raise e => Raise e
                   end
               end
          else fcsv2list lines'
      end
  end.

(** [append_landmarks_to_model]; [file] is the content of [path_fcsv],
    [None] when there is no such file. *)
Definition append_landmarks_to_model (db : DB) (id : Z) (ts : Q)
  (file : option (list string)) (name type_of_spline description : string)
  (s : series_t) (coll : list models_doc)
  : list models_doc * result (option models_doc) :=
  match file with
  | None => (coll, Raise (FileNotFoundError "path_fcsv"))
  | Some lines =>
      match fcsv2list lines with
      | Raise e => (coll, Raise e)
      | Ok points =>
          rewrite_entries db id s
            (append_landmark ts (mk_landmark name points description type_of_spline))
            coll
      end
  end.

End Fcsv.

(** ** Well-formedness predicates used by the statements *)

(** [a <= b] holds in Python. *)
Definition num_le (a b : num) : Prop := num_leb a b = true.

(** The two values are the same number ([160] and [160.0] are), or both
    are NaN. *)
Definition xsame (a b : xreal) : Prop :=
  match a, b with
  | XNaN, XNaN => True
  | XInf s, XInf t => s = t
  | XFin x, XFin y => (x == y)%Q
  | _, _ => False
  end.

Definition num_same (a b : num) : Prop := xsame (num_value a) (num_value b).

(** The value is absent, or a number other than NaN. *)
Definition not_nan (v : option num) : Prop :=
  match v with
  | Some x => num_is_nan x = false
  | None => True
  end.

(** The bounds of one dimension are consistent: both absent, or both
    present with [min <= max]. *)
Definition bounds_wf (b : bounds) : Prop :=
  match bmin b, bmax b with
  | None, None => True
  | Some m, Some mx => num_le m mx
  | _, _ => False
  end.

(** The weaker condition that a stored min does not exceed a stored max. *)
Definition bounds_ordered (b : bounds) : Prop :=
  match bmin b, bmax b with
  | Some m, Some mx => num_le m mx
  | _, _ => True
  end.

(** Sameness of optional values and of bounds. *)
Definition opt_eq (a b : option num) : Prop :=
  match a, b with
  | None, None => True
  | Some x, Some y => num_same x y
  | _, _ => False
  end.

Definition bounds_eq (a b : bounds) : Prop :=
  opt_eq (bmin a) (bmin b) /\ opt_eq (bmax a) (bmax b).

(** A present value lies between the two bounds. *)
Definition within (b : bounds) (v : option num) : Prop :=
  match v with
  | None => True
  | Some x =>
      match bmin b, bmax b with
      | Some m, Some mx => num_le m x /\ num_le x mx
      | _, _ => False
      end
  end.

(** None of the three tests of the chain fires for the value: it is
    absent, or a bound is stored and the value is neither below the
    stored min nor above the stored max. *)
Definition absorbed (b : bounds) (v : option num) : Prop :=
  match v with
  | None => True
  | Some x =>
      match bmin b with Some m => num_ltb x m | None => false end = false /\
      match bmax b with Some mx => num_ltb mx x | None => false end = false /\
      (bmin b <> None \/ bmax b <> None)
  end.

(** The bounds that a scan started on consistent bounds can reach:
    consistent ones, or a NaN in both places. *)
Definition bounds_reached (b : bounds) : Prop :=
  match bmin b, bmax b with
  | None, None => True
  | Some m, Some mx => num_le m mx \/ (num_is_nan m = true /\ num_is_nan mx = true)
  | _, _ => False
  end.

(** The ids of the list that resolve do so to patient documents whose
    height and weight are not NaN. *)
Definition patients_not_nan (db : DB) (ids : list ObjectId) : Prop :=
  forall id_ p, In id_ ids ->
    patient_find_one db id_ = Some p ->
    not_nan (p_height p) /\ not_nan (p_weight p).

(** Every member of the cohort has a patient document whose height and
    weight move none of the cohort's bounds. *)
Definition members_covered (db : DB) (c : cohort_doc) : Prop :=
  forall id_, In id_ (patient_ids c) ->
    exists p, patient_find_one db id_ = Some p /\
              absorbed (c_height c) (p_height p) /\
              absorbed (c_weight c) (p_weight p).

(** Every cohort document of the database has consistent bounds. *)
Definition cohorts_wf (db : DB) : Prop :=
  Forall (fun c => bounds_wf (c_height c) /\ bounds_wf (c_weight c)) (patient_cohort db).

(** The patient documents stored for [id] under the pair [s1], [s2] in
    either order. *)
Definition stored_under_pair (db : DB) (id : Z) (s1 s2 : string) : list patient_doc :=
  filter (fun p => patient_matches (ByInternalInfo id (SList [s1; s2])) p
                   || patient_matches (ByInternalInfo id (SList [s2; s1])) p)
         (patient db).

(** Repeated calls of [add_patients_to_cohort], one per batch. *)
Fixpoint add_batches (cohort_id : ObjectId) (batches : list (list ObjectId)) : M unit :=
  match batches with
  | [] => ret tt
  | ids :: rest =>
      add_patients_to_cohort cohort_id ids ;;;
      add_batches cohort_id rest
  end.

(** The database with the first cohort document of id [cid] replaced by
    [c'], and nothing else touched. *)
Definition cohort_replace (db : DB) (cid : ObjectId) (c' : cohort_doc) : DB :=
  mk_db (patient db) (models db)
        (update_one (cohort_has_id cid) (fun _ => c') (patient_cohort db))
        (next_oid db).

(** The cohort document [c] once [add_patients_to_cohort cid ids] has
    joined the ids and counted the members, before the dimensions are
    written. *)
Definition cohort_joined (c : cohort_doc) (ids : list ObjectId) : cohort_doc :=
  set_number_patients (Z.of_nat (List.length (add_to_set (patient_ids c) ids)))
    (set_patient_ids (add_to_set (patient_ids c) ids) c).

(** The cohort's height and weight bounds once [m] has run on [db]
    (whether [m] returned or raised). *)
Definition dimensions_after {A} (m : M A) (db : DB) (cid : ObjectId)
  : option (bounds * bounds) :=
  option_map (fun c => (c_height c, c_weight c)) (cohort_find_one (fst (m db)) cid).

(** Adding [a] then [b] and adding [b] then [a] leave the same
    bounds, as numbers, in cohort [cid]. *)
Definition add_order_independent_at (db : DB) (cid a b : ObjectId) : Prop :=
  match dimensions_after (add_patients_to_cohort cid [a] ;;;
                          add_patients_to_cohort cid [b]) db cid,
        dimensions_after (add_patients_to_cohort cid [b] ;;;
                          add_patients_to_cohort cid [a]) db cid with
  | Some (h1, w1), Some (h2, w2) => bounds_eq h1 h2 /\ bounds_eq w1 w2
  | None, None => True
  | _, _ => False
  end.

(** The database once [update_many] has applied [f] to every patient
    document of the human [id]. *)
Definition patients_updated (db : DB) (id : Z) (f : patient_doc -> patient_doc) : DB :=
  mk_db (update_many (patient_matches (ByInternalId id)) f (patient db))
        (models db) (patient_cohort db) (next_oid db).

(** Calls that pass one keyword only. *)
Definition height_only (v : pyval) : demographics :=
  mk_demographics PyNone PyNone v PyNone PyNone.

Definition weight_only (v : pyval) : demographics :=
  mk_demographics PyNone PyNone PyNone v PyNone.

Definition age_only (v : pyval) : demographics :=
  mk_demographics v PyNone PyNone PyNone PyNone.


(** The entries a call of [upload_patients] works on: those read from
    the files of [internal_id_list] when that list is given and not empty,
    else those of [patients_list]. *)
Definition requested_patients (jsondir : jsondir_t)
  (patients_list : option (list (Z * series_t))) (internal_id_list : option (list Z))
  : list (Z * series_t) :=
  match internal_id_list with
  | Some (i :: ids) =>
      match patients_of_internal_ids jsondir (i :: ids) with
      | Ok l => l
      | Raise _ => []
      end
  | _ => match patients_list with Some l => l | None => [] end
  end.

(** The look-up of the entry in [db] does not come back empty: it finds a
    record, or is itself fatal. *)
Definition already_present (db : DB) (entry : Z * series_t) : Prop :=
  get_patient_collection db (fst entry) (snd entry) <> Ok [].

(** A call that raises leaves the database as it found it. *)
Definition rejection_is_atomic (jsondir : jsondir_t) (now : Z)
  (patients_list : option (list (Z * series_t))) (internal_id_list : option (list Z))
  (db : DB) : Prop :=
  forall db' e,
    upload_patients jsondir now patients_list internal_id_list db = (db', Raise e) ->
    db' = db.

(** *** The full recompute, following the spec's words

    "The stored min (resp. max) equals the minimum (resp. maximum) of the
    present values among all patients referenced in patient_ids,
    regardless of the bounds stored before the call." *)

Definition present_values (vs : list (option num)) : list num :=
  flat_map (fun v => match v with Some x => [x] | None => [] end) vs.

Definition num_smaller (m x : num) : num := if num_ltb x m then x else m.

Definition num_larger (mx x : num) : num := if num_ltb mx x then x else mx.

Definition bounds_from_scratch (vs : list (option num)) : bounds :=
  match present_values vs with
  | [] => mk_bounds None None
  | x :: rest =>
      mk_bounds (Some (fold_left num_smaller rest x))
                (Some (fold_left num_larger rest x))
  end.

(** The values of one field over the members of a cohort. *)
Definition member_values (db : DB) (field : patient_doc -> option num) (c : cohort_doc)
  : list (option num) :=
  map (fun id_ => match patient_find_one db id_ with
                  | Some p => field p
                  | None => None
                  end)
      (patient_ids c).

(** [db'] is [db] with documents appended to the patient and models
    collections, and the same cohorts. *)
Definition extends (db db' : DB) : Prop :=
  patient_cohort db' = patient_cohort db /\
  (exists ps, patient db' = patient db ++ ps) /\
  (exists ms, models db' = models db ++ ms).

(** Every stored identifier was handed out before [next_oid]. *)
Definition oids_below (db : DB) : Prop :=
  Forall (fun p => (p_id p < next_oid db)%N) (patient db) /\
  Forall (fun m => (m_id m < next_oid db)%N) (models db).

(** In [db'] the id [pid] resolves to a patient document stamped [now]
    whose ["models"] reference resolves to a model document stamped
    [now]. *)
Definition uploaded_well (now : Z) (db' : DB) (pid : ObjectId) : Prop :=
  exists p mid m,
    patient_find_one db' pid = Some p /\
    p_datetime_creation p = Some now /\
    p_models p = Some mid /\
    models_find_one db' (Some mid) = Some m /\
    m_datetime_creation m = Some now.

(** [db'] differs from [db] at most in the patient documents of the human
    [id], which keep their place, their [_id] and their identity. *)
Definition only_human_touched (id : Z) (db db' : DB) : Prop :=
  models db' = models db /\
  patient_cohort db' = patient_cohort db /\
  next_oid db' = next_oid db /\
  Forall2 (fun p p' => p_id p' = p_id p /\
                       p_internal_info p' = p_internal_info p /\
                       (patient_matches (ByInternalId id) p = false -> p' = p))
          (patient db) (patient db').

(** The computation [m] changes nothing but patient documents of [id]. *)
Definition writes_only_human (id : Z) {A} (m : M A) : Prop :=
  forall db, only_human_touched id db (fst (m db)).

(** The lines that [fcsv2list] reads as a point: those whose first
    character is a digit. *)
Definition starts_with_digit (x : string) : bool :=
  match x with
  | String c _ => is_digit c
  | EmptyString => false
  end.

(** The series of the last patient document of the human [k], in
    collection order. *)
Definition last_series (docs : list patient_doc) (k : Z) : option series_t :=
  match rev (filter (patient_matches (ByInternalId k)) docs) with
  | p :: _ => option_map series (p_internal_info p)
  | [] => None
  end.

(** ** Sample data, after the fixtures of [tests/main/test_database_ops.py] *)

Definition sample_patient (oid : ObjectId) (id : Z) (s : series_t)
  (height weight : option num) : patient_doc :=
  mk_patient oid (Some (mk_internal_info id s)) None None height weight None None None
             None None.

Definition pat850 : patient_doc :=
  sample_patient 1%N 850 (SStr "SER00002") (Some (NInt 160)) (Some (NInt 44)).

Definition pat740 : patient_doc :=
  sample_patient 2%N 740 (SList ["SER00008"; "SER00009"]) (Some (NInt 172)) None.

Definition pat843a : patient_doc :=
  sample_patient 3%N 843 (SStr "SER00005") (Some (NInt 181)) (Some (NInt 70)).

Definition pat843b : patient_doc :=
  sample_patient 4%N 843 (SList ["SER00005"; "SER00009"]) (Some (NInt 181)) None.

Definition pat663 : patient_doc :=
  sample_patient 5%N 663 (SStr "SER00302") (Some (NInt 187)) (Some (NInt 88)).

Definition empty_cohort (cid : ObjectId) : cohort_doc :=
  mk_cohort cid "Pulsify ED Patients" [] 0 (mk_bounds None None) (mk_bounds None None).

Definition sample_db : DB :=
  mk_db [pat850; pat740; pat843a; pat843b; pat663] [] [empty_cohort 100%N] 6%N.


(** A cohort whose member list already holds an id twice. *)
Definition repeated_member_db : DB :=
  mk_db [pat850; pat663] []
        [mk_cohort 100%N "repeated" [1%N; 1%N] 2
           (mk_bounds (Some (NInt 160)) (Some (NInt 160)))
           (mk_bounds (Some (NInt 44)) (Some (NInt 44)))]
        6%N.


(** The upload directory of the suite, reduced to human 722 (one series
    directory) and human 726 (flat layout). *)
Definition file_722 : patient_file :=
  mk_patient_file (Some (mk_internal_info 722 (SStr "SER00004")))
    (Some (NInt 57)) (Some "female") (Some (NInt 161)) (Some (NInt 62)) None None None.

Definition file_726 : patient_file :=
  mk_patient_file (Some (mk_internal_info 726 (SStr "SER00001")))
    None None None None None None None.

Definition upload_data : jsondir_t :=
  fun human =>
    if human =? 722
    then Some (mk_human_dir None None
                 [("SER00004", mk_series_dir (Some file_722) (Some ["LV"; "RV"]))])
    else if human =? 726
    then Some (mk_human_dir (Some file_726) (Some ["LV"]) [])
    else None.

(** Patient 850 with its models document. *)
Definition modelled_db : DB :=
  mk_db [mk_patient 1%N (Some (mk_internal_info 850 (SStr "SER00002")))
           (Some (NInt 46)) None (Some (NInt 160)) (Some (NInt 44)) None None None
           (Some 50%N) None]
        [mk_model 50%N ["frame-2"] None]
        [empty_cohort 100%N] 51%N.

(** A cohort with one member that has no patient document. *)
Definition dangling_member_db : DB :=
  mk_db [pat850] [] 
        [mk_cohort 100%N "dangling" [9%N] 1 (mk_bounds None None) (mk_bounds None None)]
        10%N.

(** A cohort with two members and no bounds computed yet. *)
Definition unscanned_db : DB :=
  mk_db [pat850; pat663] []
        [mk_cohort 100%N "unscanned" [1%N; 5%N] 2
           (mk_bounds None None) (mk_bounds None None)]
        6%N.

(** The models document of patient 850 with its entries: two frames. *)
Definition sample_entries : list models_doc :=
  [mk_models_doc 50%N
     [mk_model_entry (0 # 1) [mk_sub_model "aorta.stl" "Aorta"] [];
      mk_model_entry (9 # 10) [] []]].

(** A reader of decimal numbers that knows two texts and rejects the
    rest. *)
Definition sample_float (t : string) : option Q :=
  if String.eqb t "1.5" then Some (3 # 2)
  else if String.eqb t "2" then Some (2 # 1)
  else None.

(** Two records of human 7 under the same pair of labels, one for each
    order. *)
Definition both_orders_db : DB :=
  mk_db [sample_patient 1%N 7 (SList ["a"; "b"]) None None;
         sample_patient 2%N 7 (SList ["b"; "a"]) None None] [] [] 3%N.

(** A patient whose stored height is NaN, beside patient 850, and an
    empty cohort. *)
Definition nan_height_db : DB :=
  mk_db [sample_patient 21%N 21 (SStr "S1") (Some (NFloat S754_nan)) None; pat850]
        [] [empty_cohort 100%N] 22%N.

(** * Properties *)

(** ** Patient identity resolution *)

Section Lookup.

Variable db : DB.
Variable id : Z.

Lemma list_string_eqb_eq (a b : list string) :
  list_string_eqb a b = true -> a = b.
Proof.
  revert b; induction a as [|x a IH]; intros [|y b]; simpl; try discriminate; auto.
  intros H. apply andb_true_iff in H. destruct H as [Hxy Hab].
  apply String.eqb_eq in Hxy. subst y. f_equal. now apply IH.
Qed.

Lemma to_query_pair (a b : string) :
  to_query db id (SList [a; b]) =
    if (1 <? List.length (patient_find db (ByInternalInfo id (SList [a; b]))))%nat
    then Raise (SystemExit "More than one patient entry found.")
    else Ok (patient_find db (ByInternalInfo id (SList [a; b]))).
Proof. reflexivity. Qed.

Lemma to_query_empty (s : series_t) :
  patient_find db (to_query_filter id s) = [] -> to_query db id s = Ok [].
Proof. unfold to_query. intros ->. reflexivity. Qed.

(** When one of the two orders has no stored record, the retry makes the
    two look-ups meet on the other one. *)
Lemma get_patient_collection_one_order (s1 s2 : string) :
  patient_find db (ByInternalInfo id (SList [s1; s2])) = [] ->
  get_patient_collection db id (SList [s1; s2]) =
  get_patient_collection db id (SList [s2; s1]).
Proof.
  intros H12.
  unfold get_patient_collection, get_patient_collection_traced.
  rewrite (to_query_empty (SList [s1; s2]) H12). simpl.
  destruct (to_query db id (SList [s2; s1])) as [[|p q]|e] eqn:E21; simpl; auto.
  now rewrite (to_query_empty (SList [s1; s2]) H12).
Qed.

Lemma filter_orb_length {A} (p q : A -> bool) (l : list A) :
  (forall x, p x = true -> q x = true -> False) ->
  List.length (filter (fun x => p x || q x) l) =
  (List.length (filter p l) + List.length (filter q l))%nat.
Proof.
  intros Hdisj. induction l as [|x l IH]; simpl; auto.
  destruct (p x) eqn:Hp, (q x) eqn:Hq; simpl; rewrite IH; try lia.
  exfalso. eauto.
Qed.

Lemma pair_orders_disjoint (s1 s2 : string) (p : patient_doc) :
  s1 <> s2 ->
  patient_matches (ByInternalInfo id (SList [s1; s2])) p = true ->
  patient_matches (ByInternalInfo id (SList [s2; s1])) p = true -> False.
Proof.
  unfold patient_matches. intros Hne.
  destruct (p_internal_info p) as [info|]; try discriminate.
  intros H1 H2.
  apply andb_true_iff in H1. apply andb_true_iff in H2.
  destruct H1 as [_ H1], H2 as [_ H2].
  destruct (series info) as [|s|l]; simpl in *; try discriminate.
  apply list_string_eqb_eq in H1. apply list_string_eqb_eq in H2.
  congruence.
Qed.

(** C7.  Ambiguous look-up is fatal and immediate: whatever the series
    argument (absent, a label, a pair or any list), when the filter that
    the call resolves to has more than one hit, the call raises
    [SystemExit], and that filter is the only one sent to the database:
    the reversed pair is never tried. *)
Theorem ambiguous_lookup_is_fatal (s : series_t) :
  (1 < List.length (patient_find db (to_query_filter id s)))%nat ->
  get_patient_collection_traced db id s =
    ([to_query_filter id s],
     Raise (SystemExit "More than one patient entry found.")).
Proof.
  intros Hmany.
  assert (Hq : to_query db id s =
               Raise (SystemExit "More than one patient entry found.")).
  { unfold to_query. apply Nat.ltb_lt in Hmany. now rewrite Hmany. }
  unfold get_patient_collection_traced.
  destruct s; rewrite Hq; reflexivity.
Qed.

Lemma filter_orb_none_left {A} (p q : A -> bool) (l : list A) :
  filter p l = [] -> filter (fun x => p x || q x) l = filter q l.
Proof.
  induction l as [|x l IH]; simpl; auto.
  destruct (p x); [discriminate|]. simpl. intros H.
  destruct (q x); now rewrite IH.
Qed.

Lemma filter_orb_none_right {A} (p q : A -> bool) (l : list A) :
  filter q l = [] -> filter (fun x => p x || q x) l = filter p l.
Proof.
  induction l as [|x l IH]; simpl; auto.
  destruct (q x); [discriminate|]. rewrite orb_false_r. intros H.
  destruct (p x); now rewrite IH.
Qed.

Lemma to_query_at_most_one (s : series_t) :
  (List.length (patient_find db (to_query_filter id s)) <= 1)%nat ->
  to_query db id s = Ok (patient_find db (to_query_filter id s)).
Proof.
  intros H. unfold to_query.
  destruct (1 <? _)%nat eqn:E; [|reflexivity].
  apply Nat.ltb_lt in E. lia.
Qed.

(** A pair with at most one hit in each order: the look-up returns the
    hit of the given order, and the hit of the reversed order when the
    given order has none. *)
Lemma lookup_pair_found_or_retried (s1 s2 : string) :
  (List.length (patient_find db (ByInternalInfo id (SList [s1; s2]))) <= 1)%nat ->
  (List.length (patient_find db (ByInternalInfo id (SList [s2; s1]))) <= 1)%nat ->
  get_patient_collection db id (SList [s1; s2]) =
    Ok (match patient_find db (ByInternalInfo id (SList [s1; s2])) with
        | [] => patient_find db (ByInternalInfo id (SList [s2; s1]))
        | found => found
        end).
Proof.
  intros H12 H21.
  unfold get_patient_collection, get_patient_collection_traced.
  rewrite (to_query_at_most_one (SList [s1; s2]) H12).
  change (to_query_filter id (SList [s1; s2])) with (ByInternalInfo id (SList [s1; s2])).
  destruct (patient_find db (ByInternalInfo id (SList [s1; s2]))) as [|p q];
    [|reflexivity].
  cbn [reversed_pair snd].
  now rewrite (to_query_at_most_one (SList [s2; s1]) H21).
Qed.

Lemma stored_under_pair_sym (s1 s2 : string) :
  stored_under_pair db id s2 s1 = stored_under_pair db id s1 s2.
Proof.
  unfold stored_under_pair. apply filter_ext. intros p. apply orb_comm.
Qed.

Lemma lookup_pair_one_record (s1 s2 : string) :
  (List.length (stored_under_pair db id s1 s2) <= 1)%nat ->
  get_patient_collection db id (SList [s1; s2]) = Ok (stored_under_pair db id s1 s2).
Proof.
  intros Hone.
  destruct (string_dec s1 s2) as [->|Hne].
  - (* one label twice: the two filters are the same *)
    assert (Hsame : stored_under_pair db id s2 s2 =
                    patient_find db (ByInternalInfo id (SList [s2; s2]))).
    { unfold stored_under_pair, patient_find. apply filter_ext.
      intros p. apply orb_diag. }
    rewrite Hsame in *.
    rewrite lookup_pair_found_or_retried by exact Hone.
    now destruct (patient_find db (ByInternalInfo id (SList [s2; s2]))).
  - unfold stored_under_pair in *.
    rewrite filter_orb_length in Hone
      by (intros p; apply pair_orders_disjoint; assumption).
    rewrite lookup_pair_found_or_retried by (unfold patient_find; lia).
    unfold patient_find.
    destruct (filter (patient_matches (ByInternalInfo id (SList [s1; s2]))) (patient db))
      as [|p q] eqn:E12.
    + now rewrite (filter_orb_none_left _ _ _ E12).
    + destruct (filter (patient_matches (ByInternalInfo id (SList [s2; s1])))
                  (patient db)) as [|p' q'] eqn:E21.
      * now rewrite (filter_orb_none_right _ _ _ E21), E12.
      * simpl in Hone. lia.
Qed.

(** C3 (amended).  When at most one patient record of the internal id is
    stored under the pair, in whichever order, the look-up by [[s1, s2]]
    and the look-up by [[s2, s1]] both return that record, or the empty
    list when there is none; and whenever the query in the given order
    has no hit, the reversed pair is the second filter sent to the
    database. *)
Theorem lookup_pair_either_order (s1 s2 : string) :
  (List.length (stored_under_pair db id s1 s2) <= 1)%nat ->
  get_patient_collection db id (SList [s1; s2]) = Ok (stored_under_pair db id s1 s2) /\
  get_patient_collection db id (SList [s2; s1]) = Ok (stored_under_pair db id s1 s2) /\
  (patient_find db (ByInternalInfo id (SList [s1; s2])) = [] ->
   fst (get_patient_collection_traced db id (SList [s1; s2])) =
     [ByInternalInfo id (SList [s1; s2]); ByInternalInfo id (SList [s2; s1])]).
Proof.
  intros Hone. split; [|split].
  - now apply lookup_pair_one_record.
  - rewrite <- (stored_under_pair_sym s1 s2) in *.
    now apply lookup_pair_one_record.
  - intros Hnone. unfold get_patient_collection_traced.
    now rewrite (to_query_empty (SList [s1; s2]) Hnone).
Qed.

End Lookup.

Lemma ambiguous_lookup_is_fatal_witness :
  get_patient_collection_traced sample_db 843 SNone =
    ([ByInternalId 843], Raise (SystemExit "More than one patient entry found.")).
Proof.
  apply (ambiguous_lookup_is_fatal sample_db 843 SNone).
  vm_compute. lia.
Defined.

Lemma lookup_pair_either_order_witness :
  get_patient_collection sample_db 740 (SList ["SER00009"; "SER00008"]) = Ok [pat740] /\
  get_patient_collection sample_db 740 (SList ["SER00008"; "SER00009"]) = Ok [pat740] /\
  (patient_find sample_db (ByInternalInfo 740 (SList ["SER00009"; "SER00008"])) = [] ->
   fst (get_patient_collection_traced sample_db 740 (SList ["SER00009"; "SER00008"])) =
     [ByInternalInfo 740 (SList ["SER00009"; "SER00008"]);
      ByInternalInfo 740 (SList ["SER00008"; "SER00009"])]).
Proof.
  apply (lookup_pair_either_order sample_db 740 "SER00009" "SER00008").
  vm_compute. lia.
Defined.

(** A pair that is not stored in the given order is retried once, in the
    reversed order, and ambiguity of the retried filter is fatal as well. *)
Lemma retried_lookup_is_fatal_too (db : DB) (id : Z) (s1 s2 : string) :
  patient_find db (ByInternalInfo id (SList [s1; s2])) = [] ->
  (1 < List.length (patient_find db (ByInternalInfo id (SList [s2; s1]))))%nat ->
  get_patient_collection_traced db id (SList [s1; s2]) =
    ([ByInternalInfo id (SList [s1; s2]); ByInternalInfo id (SList [s2; s1])],
     Raise (SystemExit "More than one patient entry found.")).
Proof.
  intros Hnone Hmany.
  unfold get_patient_collection_traced.
  rewrite (@to_query_empty db id (SList [s1; s2]) Hnone). simpl.
  rewrite to_query_pair. apply Nat.ltb_lt in Hmany. now rewrite Hmany.
Qed.

(** The interchangeability test of the suite: both orders find patient 740,
    the second one through the retry. *)
Example lookup_740_retry_trace :
  get_patient_collection_traced sample_db 740 (SList ["SER00009"; "SER00008"]) =
    ([ByInternalInfo 740 (SList ["SER00009"; "SER00008"]);
      ByInternalInfo 740 (SList ["SER00008"; "SER00009"])],
     Ok [pat740]).
Proof. reflexivity. Qed.

Example lookup_740_reversed :
  get_patient_collection sample_db 740 (SList ["SER00009"; "SER00008"]) = Ok [pat740].
Proof. reflexivity. Qed.

(** C3 as stated fails when a record is stored under each order of the
    pair: each look-up finds the record of its own order, so the two
    calls return different records and the reversed pair is never
    tried. *)
Lemma lookup_both_orders_stored :
  get_patient_collection_traced both_orders_db 7 (SList ["a"; "b"]) =
    ([ByInternalInfo 7 (SList ["a"; "b"])],
     Ok [sample_patient 1%N 7 (SList ["a"; "b"]) None None]) /\
  get_patient_collection_traced both_orders_db 7 (SList ["b"; "a"]) =
    ([ByInternalInfo 7 (SList ["b"; "a"])],
     Ok [sample_patient 2%N 7 (SList ["b"; "a"]) None None]) /\
  get_patient_collection both_orders_db 7 (SList ["a"; "b"]) <>
  get_patient_collection both_orders_db 7 (SList ["b"; "a"]).
Proof.
  split; [reflexivity|]. split; [reflexivity|].
  vm_compute. discriminate.
Qed.

(** ** The document-store primitives *)

Section Collections.

Context {A : Type}.
Variable p : A -> bool.

Lemma find_one_holds (l : list A) (c : A) :
  find_one p l = Some c -> p c = true.
Proof. intros H. apply find_some in H. tauto. Qed.

Lemma update_one_found (f : A -> A) (l : list A) (c : A) :
  find_one p l = Some c ->
  update_one p f l = update_one p (fun _ => f c) l.
Proof.
  induction l as [|d l IH]; simpl; auto.
  destruct (p d) eqn:E.
  - intros [= ->]. reflexivity.
  - intros H. now rewrite IH.
Qed.

Lemma update_one_missing (f : A -> A) (l : list A) :
  find_one p l = None -> update_one p f l = l.
Proof.
  induction l as [|d l IH]; simpl; auto.
  destruct (p d) eqn:E; [discriminate|].
  intros H. now rewrite IH.
Qed.

Lemma find_one_replaced (l : list A) (c c' : A) :
  find_one p l = Some c -> p c' = true ->
  find_one p (update_one p (fun _ => c') l) = Some c'.
Proof.
  intros H Hc'. induction l as [|d l IH]; simpl in *; [discriminate|].
  destruct (p d) eqn:E; simpl.
  - now rewrite Hc'.
  - rewrite E. auto.
Qed.

Lemma update_one_twice (l : list A) (c1 c2 : A) :
  p c1 = true ->
  update_one p (fun _ => c2) (update_one p (fun _ => c1) l) =
  update_one p (fun _ => c2) l.
Proof.
  intros H1. induction l as [|d l IH]; simpl; auto.
  destruct (p d) eqn:E; simpl.
  - now rewrite H1.
  - rewrite E. now rewrite IH.
Qed.

Lemma update_one_same (l : list A) (c : A) :
  find_one p l = Some c -> update_one p (fun _ => c) l = l.
Proof.
  induction l as [|d l IH]; simpl; auto.
  destruct (p d) eqn:E.
  - now intros [= ->].
  - intros H. now rewrite IH.
Qed.

Lemma update_one_Forall (P : A -> Prop) (f : A -> A) (l : list A) :
  (forall x, P x -> P (f x)) -> Forall P l -> Forall P (update_one p f l).
Proof.
  intros Hf. induction 1 as [|d l Hd Hl IH]; simpl; auto.
  destruct (p d); constructor; auto.
Qed.

End Collections.

(** ** [$addToSet] *)

Section AddToSet.

Lemma existsb_eqb_In (x : ObjectId) (l : list ObjectId) :
  existsb (N.eqb x) l = true <-> In x l.
Proof.
  rewrite existsb_exists. split.
  - intros (y & Hy & E). apply N.eqb_eq in E. now subst.
  - intros H. exists x. split; auto. apply N.eqb_refl.
Qed.

Lemma add_to_set_NoDup (xs arr : list ObjectId) :
  NoDup arr -> NoDup (add_to_set arr xs).
Proof.
  revert arr. induction xs as [|x xs IH]; intros arr Harr; simpl; auto.
  apply IH. destruct (existsb (N.eqb x) arr) eqn:E; auto.
  assert (Hx : ~ In x arr).
  { intros Hin. apply existsb_eqb_In in Hin. congruence. }
  clear E. induction arr as [|a arr IHa]; simpl.
  - constructor; [intros []|constructor].
  - inversion Harr; subst. constructor.
    + rewrite in_app_iff. simpl. intros [H|[H|[]]]; auto.
      subst. apply Hx. now left.
    + apply IHa; auto. intros H. apply Hx. now right.
Qed.

Lemma add_to_set_members (xs arr : list ObjectId) :
  (forall x, In x xs -> In x arr) -> add_to_set arr xs = arr.
Proof.
  revert arr. induction xs as [|x xs IH]; intros arr H; simpl; auto.
  assert (Hx : existsb (N.eqb x) arr = true)
    by (apply existsb_eqb_In, H; now left).
  rewrite Hx. apply IH. intros y Hy. apply H. now right.
Qed.

Lemma add_to_set_In (xs arr : list ObjectId) (y : ObjectId) :
  In y (add_to_set arr xs) <-> In y arr \/ In y xs.
Proof.
  revert arr. induction xs as [|x xs IH]; intros arr; simpl.
  - tauto.
  - rewrite IH. destruct (existsb (N.eqb x) arr) eqn:E.
    + apply existsb_eqb_In in E. split; [tauto|].
      intros [H|[H|H]]; auto. subst. auto.
    + rewrite in_app_iff. simpl. tauto.
Qed.

End AddToSet.

(** ** The min/max step on one dimension *)

Section Bounds.

Lemma Qltb_lt (x y : Q) : Qltb x y = true -> (x < y)%Q.
Proof.
  unfold Qltb. intros H. apply negb_true_iff in H.
  apply Qnot_le_lt. intros Hle. apply Qle_bool_iff in Hle. congruence.
Qed.

Lemma Qltb_ge (x y : Q) : Qltb x y = false -> (y <= x)%Q.
Proof.
  unfold Qltb. intros H. apply negb_false_iff in H. now apply Qle_bool_iff.
Qed.

Lemma Qltb_of_ge (x y : Q) : (y <= x)%Q -> Qltb x y = false.
Proof.
  intros H. unfold Qltb. apply negb_false_iff. now apply Qle_bool_iff.
Qed.

Lemma Qltb_of_lt (x y : Q) : (x < y)%Q -> Qltb x y = true.
Proof.
  intros H. destruct (Qltb x y) eqn:E; auto. apply Qltb_ge in E. lra.
Qed.

Lemma Qle_bool_gt (x y : Q) : Qle_bool x y = false -> (y < x)%Q.
Proof.
  intros H. apply Qnot_le_lt. intros Hle. apply Qle_bool_iff in Hle. congruence.
Qed.

Lemma Qle_bool_of_gt (x y : Q) : (y < x)%Q -> Qle_bool x y = false.
Proof.
  intros H. destruct (Qle_bool x y) eqn:E; auto. apply Qle_bool_iff in E. lra.
Qed.

Lemma bounds_eta (b : bounds) : mk_bounds (bmin b) (bmax b) = b.
Proof. now destruct b. Qed.

End Bounds.

(** Every comparison of two rationals in the context becomes an order
    fact. *)
Ltac order_facts :=
  repeat match goal with
    | H : Qltb _ _ = true |- _ => apply Qltb_lt in H
    | H : Qltb _ _ = false |- _ => apply Qltb_ge in H
    | H : Qle_bool _ _ = true |- _ => apply Qle_bool_iff in H
    | H : Qle_bool _ _ = false |- _ => apply Qle_bool_gt in H
    | H : _ /\ _ |- _ => destruct H
    end.

Ltac order_goal :=
  match goal with
  | |- Qle_bool _ _ = true => apply Qle_bool_iff; lra
  | |- Qle_bool _ _ = false => apply Qle_bool_of_gt; lra
  | |- Qltb _ _ = true => apply Qltb_of_lt; lra
  | |- Qltb _ _ = false => apply Qltb_of_ge; lra
  | |- (_ == _)%Q => lra
  | |- _ => first [reflexivity | discriminate | tauto | congruence | lra]
  end.

(** Names the exact value of every number in sight, splits on its kind
    (NaN, an infinity, finite) and decides what is left by arithmetic on
    the rationals. *)
Ltac by_values :=
  unfold num_le, num_same, num_ltb, num_leb, num_is_nan in *;
  repeat match goal with
    | H : _ /\ _ |- _ => destruct H
    | H : _ \/ _ |- _ => destruct H
    end;
  repeat match goal with
    | |- context [num_value ?a] =>
        let v := fresh "v" in set (v := num_value a) in *; clearbody v
    | H : context [num_value ?a] |- _ =>
        let v := fresh "v" in set (v := num_value a) in *; clearbody v
    end;
  repeat match goal with
    | v : xreal |- _ =>
        destruct v as [|[|]|?]; simpl in *; try discriminate; try tauto
    end;
  repeat match goal with
    | |- context [Qltb ?a ?b] => destruct (Qltb a b) eqn:?; simpl in *
    | |- context [Qle_bool ?a ?b] => destruct (Qle_bool a b) eqn:?; simpl in *
    end;
  order_facts;
  repeat split;
  first [ order_goal
        | left; order_goal
        | right; repeat split; order_goal
        | exfalso; order_goal ].

(** Splits on every test of the chain in the goal. *)
Ltac split_comparisons :=
  repeat match goal with
    | |- context [num_ltb ?a ?b] => destruct (num_ltb a b) eqn:?; simpl
    end.

Ltac bounds_crush :=
  unfold bounds_wf, bounds_ordered, bounds_reached, bounds_eq, opt_eq, within,
    absorbed, not_nan, update_bounds in *;
  simpl in *;
  split_comparisons;
  unfold bounds_wf, bounds_ordered, bounds_reached, bounds_eq, opt_eq, within,
    absorbed, not_nan in *;
  simpl in *;
  repeat match goal with H : _ /\ _ |- _ => destruct H end;
  repeat split;
  try tauto; try congruence; try by_values.

Section BoundsStep.

Variable b : bounds.

Lemma bounds_wf_reached : bounds_wf b -> bounds_reached b.
Proof. destruct b as [[m|] [mx|]]; bounds_crush. Qed.

(** A value that is not NaN keeps consistent bounds consistent. *)
Lemma update_bounds_wf (v : option num) :
  bounds_wf b -> not_nan v -> bounds_wf (update_bounds b v).
Proof. destruct b as [[m|] [mx|]], v as [x|]; bounds_crush. Qed.

Lemma update_bounds_reached (v : option num) :
  bounds_reached b -> bounds_reached (update_bounds b v).
Proof. destruct b as [[m|] [mx|]], v as [x|]; bounds_crush. Qed.

Lemma update_bounds_absorbs (v : option num) :
  bounds_reached b -> absorbed (update_bounds b v) v.
Proof. destruct b as [[m|] [mx|]], v as [x|]; bounds_crush. Qed.

Lemma update_bounds_keeps_absorbed (u v : option num) :
  bounds_reached b -> absorbed b u -> absorbed (update_bounds b v) u.
Proof. destruct b as [[m|] [mx|]], u as [x|], v as [y|]; bounds_crush. Qed.

Lemma update_bounds_keeps (u v : option num) :
  bounds_reached b -> within b u -> within (update_bounds b v) u.
Proof. destruct b as [[m|] [mx|]], u as [x|], v as [y|]; bounds_crush. Qed.

(** A value that fires none of the tests changes nothing. *)
Lemma update_bounds_absorbed (v : option num) :
  absorbed b v -> update_bounds b v = b.
Proof.
  destruct v as [x|]; [|reflexivity].
  intros (H1 & H2 & H3). unfold update_bounds. rewrite H1, H2.
  destruct b as [[m|] [mx|]]; simpl in *; auto. tauto.
Qed.

Lemma within_absorbed (v : option num) : within b v -> absorbed b v.
Proof. destruct b as [[m|] [mx|]], v as [x|]; bounds_crush. Qed.

End BoundsStep.


(** A value already inside the bounds changes nothing (no hypothesis on
    the bounds is needed: [within] says both are present). *)
Lemma update_bounds_within (b : bounds) (v : option num) :
  within b v -> update_bounds b v = b.
Proof. intros H. now apply update_bounds_absorbed, within_absorbed. Qed.

(** ** What the cohort operations do to the database *)

Section CohortRuns.

Variable cid : ObjectId.

Lemma db_eta (db : DB) :
  mk_db (patient db) (models db) (patient_cohort db) (next_oid db) = db.
Proof. now destruct db. Qed.

Lemma cohort_found_id (db : DB) (c : cohort_doc) :
  cohort_find_one db cid = Some c -> cohort_has_id cid c = true.
Proof. apply find_one_holds. Qed.

Lemma cohort_update_one_run (db : DB) (f : cohort_doc -> cohort_doc) (c : cohort_doc) :
  cohort_find_one db cid = Some c ->
  cohort_update_one cid f db = (cohort_replace db cid (f c), Ok tt).
Proof.
  intros H. unfold cohort_update_one, cohort_replace.
  now rewrite (update_one_found _ f _ H).
Qed.

Lemma cohort_update_one_missing (db : DB) (f : cohort_doc -> cohort_doc) :
  cohort_find_one db cid = None ->
  cohort_update_one cid f db = (db, Ok tt).
Proof.
  intros H. unfold cohort_update_one.
  rewrite (update_one_missing _ f _ H). now rewrite db_eta.
Qed.

Lemma cohort_find_replace (db : DB) (c c' : cohort_doc) :
  cohort_find_one db cid = Some c -> c_id c' = c_id c ->
  cohort_find_one (cohort_replace db cid c') cid = Some c'.
Proof.
  intros H Hid. unfold cohort_find_one, cohort_replace. simpl.
  apply find_one_replaced with (c := c); auto.
  unfold cohort_has_id. rewrite Hid. exact (cohort_found_id _ H).
Qed.

Lemma cohort_replace_twice (db : DB) (c1 c2 : cohort_doc) :
  cohort_has_id cid c1 = true ->
  cohort_replace (cohort_replace db cid c1) cid c2 = cohort_replace db cid c2.
Proof.
  intros H. unfold cohort_replace. simpl. now rewrite update_one_twice.
Qed.

Lemma cohort_replace_same (db : DB) (c : cohort_doc) :
  cohort_find_one db cid = Some c -> cohort_replace db cid c = db.
Proof.
  intros H. unfold cohort_replace. rewrite (update_one_same _ _ H). apply db_eta.
Qed.

Lemma scan_patients_same_patients (db db' : DB) (ids : list ObjectId) (h w : bounds) :
  patient db' = patient db ->
  scan_patients db' ids h w = scan_patients db ids h w.
Proof.
  intros Hp. revert h w. induction ids as [|i ids IH]; intros h w; simpl; auto.
  unfold patient_find_one. rewrite Hp.
  destruct (find_one (patient_has_id i) (patient db)); auto.
Qed.

Lemma set_dimensions_same (c : cohort_doc) :
  set_dimensions (c_height c) (c_weight c) c = c.
Proof. unfold set_dimensions. rewrite !bounds_eta. now destruct c. Qed.

Lemma update_dimensions_run (db : DB) (ids : list ObjectId) (c : cohort_doc) :
  cohort_find_one db cid = Some c ->
  _update_max_min_patient_dimensions_in_cohort cid ids db =
    match scan_patients db ids (c_height c) (c_weight c) with
    | Ok hw => (cohort_replace db cid (set_dimensions (fst hw) (snd hw) c), Ok tt)
    | Raise e => (db, Raise e)
    end.
Proof.
  intros H. unfold _update_max_min_patient_dimensions_in_cohort, bind, get_db, lift.
  rewrite H.
  destruct (scan_patients db ids (c_height c) (c_weight c)) as [hw|e]; auto.
  now apply cohort_update_one_run.
Qed.

Lemma add_patients_to_cohort_run (db : DB) (ids : list ObjectId) (c : cohort_doc) :
  cohort_find_one db cid = Some c ->
  add_patients_to_cohort cid ids db =
    match scan_patients db ids (c_height c) (c_weight c) with
    | Ok hw =>
        (cohort_replace db cid (set_dimensions (fst hw) (snd hw) (cohort_joined c ids)),
         Ok (add_to_set (patient_ids c) ids))
    | Raise e => (cohort_replace db cid (cohort_joined c ids), Raise e)
    end.
Proof.
  intros H. pose proof (cohort_found_id _ H) as Hid.
  unfold add_patients_to_cohort, bind at 1.
  rewrite (cohort_update_one_run _ _ H).
  set (c1 := set_patient_ids (add_to_set (patient_ids c) ids) c).
  assert (H1 : cohort_find_one (cohort_replace db cid c1) cid = Some c1)
    by (apply cohort_find_replace with (c := c); auto).
  unfold bind at 1, get_db. rewrite H1.
  unfold bind at 1. rewrite (cohort_update_one_run _ _ H1).
  rewrite cohort_replace_twice by exact Hid.
  change (set_number_patients (Z.of_nat (List.length (patient_ids c1))) c1)
    with (cohort_joined c ids).
  assert (H2 : cohort_find_one (cohort_replace db cid (cohort_joined c ids)) cid
               = Some (cohort_joined c ids))
    by (apply cohort_find_replace with (c := c); auto).
  unfold bind at 1. rewrite (update_dimensions_run _ ids H2).
  rewrite scan_patients_same_patients with (db := db) by reflexivity.
  change (c_height (cohort_joined c ids)) with (c_height c).
  change (c_weight (cohort_joined c ids)) with (c_weight c).
  destruct (scan_patients db ids (c_height c) (c_weight c)) as [hw|e]; auto.
  rewrite cohort_replace_twice by exact Hid.
  unfold bind, get_db.
  rewrite cohort_find_replace with (c := c); auto.
Qed.

Lemma add_patients_to_cohort_missing (db : DB) (ids : list ObjectId) :
  cohort_find_one db cid = None ->
  add_patients_to_cohort cid ids db = (db, Raise none_type_error).
Proof.
  intros H. unfold add_patients_to_cohort, bind at 1.
  rewrite (cohort_update_one_missing _ _ H).
  unfold bind, get_db. now rewrite H.
Qed.

Lemma set_max_min_run (db : DB) (c : cohort_doc) :
  cohort_find_one db cid = Some c ->
  set_max_min_patient_dimensions_in_cohort cid db =
    match scan_patients db (patient_ids c) (c_height c) (c_weight c) with
    | Ok hw =>
        (cohort_replace db cid (set_dimensions (fst hw) (snd hw) c),
         Ok (Some (set_dimensions (fst hw) (snd hw) c)))
    | Raise e => (db, Raise e)
    end.
Proof.
  intros H. unfold set_max_min_patient_dimensions_in_cohort, bind at 1, get_db.
  rewrite H. unfold bind at 1, lift.
  destruct (scan_patients db (patient_ids c) (c_height c) (c_weight c)) as [hw|e]; auto.
  unfold bind at 1. rewrite (cohort_update_one_run _ _ H).
  unfold bind, get_db, ret.
  rewrite cohort_find_replace with (c := c); auto.
Qed.

Lemma set_max_min_missing (db : DB) :
  cohort_find_one db cid = None ->
  set_max_min_patient_dimensions_in_cohort cid db = (db, Raise none_type_error).
Proof.
  intros H. unfold set_max_min_patient_dimensions_in_cohort, bind, get_db.
  now rewrite H.
Qed.

End CohortRuns.

(** ** The scan over a list of patient ids *)

Section Scan.

Variable db : DB.

Lemma scan_patients_ok_inv (ids : list ObjectId) :
  forall h w h' w',
    bounds_reached h -> bounds_reached w ->
    scan_patients db ids h w = Ok (h', w') ->
    bounds_reached h' /\ bounds_reached w' /\
    (forall v, within h v -> within h' v) /\
    (forall v, within w v -> within w' v) /\
    (forall v, absorbed h v -> absorbed h' v) /\
    (forall v, absorbed w v -> absorbed w' v) /\
    (forall id_, In id_ ids ->
       exists p, patient_find_one db id_ = Some p /\
                 absorbed h' (p_height p) /\ absorbed w' (p_weight p)).
Proof.
  induction ids as [|i ids IH]; intros h w h' w' Hh Hw; simpl.
  - intros [= <- <-]. repeat split; auto. intros ? [].
  - destruct (patient_find_one db i) as [p|] eqn:Ep; [|discriminate].
    intros Hscan.
    apply IH in Hscan; auto using update_bounds_reached.
    destruct Hscan as (Hh' & Hw' & Kh & Kw & Ah & Aw & Hcov).
    repeat split; auto.
    + intros v Hv. apply Kh. now apply update_bounds_keeps.
    + intros v Hv. apply Kw. now apply update_bounds_keeps.
    + intros v Hv. apply Ah. now apply update_bounds_keeps_absorbed.
    + intros v Hv. apply Aw. now apply update_bounds_keeps_absorbed.
    + intros j [<-|Hj]; auto.
      exists p. repeat split; auto.
      * apply Ah. now apply update_bounds_absorbs.
      * apply Aw. now apply update_bounds_absorbs.
Qed.

Lemma scan_patients_raise_or_wf (ids : list ObjectId) :
  forall h w, bounds_wf h -> bounds_wf w -> patients_not_nan db ids ->
    match scan_patients db ids h w with
    | Ok hw => bounds_wf (fst hw) /\ bounds_wf (snd hw)
    | Raise _ => True
    end.
Proof.
  induction ids as [|i ids IH]; intros h w Hh Hw Hnan; simpl; auto.
  destruct (patient_find_one db i) as [p|] eqn:Ep; auto.
  destruct (Hnan i p) as [Hph Hpw]; [now left|exact Ep|].
  apply IH; try now apply update_bounds_wf.
  intros j q Hj. apply Hnan. now right.
Qed.

Lemma scan_patients_covered (ids : list ObjectId) (h w : bounds) :
  (forall id_, In id_ ids ->
     exists p, patient_find_one db id_ = Some p /\
               absorbed h (p_height p) /\ absorbed w (p_weight p)) ->
  scan_patients db ids h w = Ok (h, w).
Proof.
  induction ids as [|i ids IH]; intros Hcov; simpl; auto.
  destruct (Hcov i) as (p & Ep & Hph & Hpw); [now left|].
  rewrite Ep, (@update_bounds_absorbed _ _ Hph), (@update_bounds_absorbed _ _ Hpw).
  apply IH. intros j Hj. apply Hcov. now right.
Qed.

End Scan.

Lemma set_dimensions_wf (h w : bounds) (c : cohort_doc) :
  bounds_wf h -> bounds_wf w ->
  bounds_wf (c_height (set_dimensions h w c)) /\
  bounds_wf (c_weight (set_dimensions h w c)).
Proof. simpl. now rewrite !bounds_eta. Qed.

Lemma cohort_replace_wf (db : DB) (cid : ObjectId) (c' : cohort_doc) :
  cohorts_wf db ->
  bounds_wf (c_height c') /\ bounds_wf (c_weight c') ->
  cohorts_wf (cohort_replace db cid c').
Proof.
  intros Hdb Hc'. unfold cohorts_wf, cohort_replace. simpl.
  apply update_one_Forall; auto.
Qed.

Lemma cohorts_wf_found (db : DB) (cid : ObjectId) (c : cohort_doc) :
  cohorts_wf db -> cohort_find_one db cid = Some c ->
  bounds_wf (c_height c) /\ bounds_wf (c_weight c).
Proof.
  intros Hdb H. apply find_some in H. destruct H as [Hin _].
  unfold cohorts_wf in Hdb. rewrite Forall_forall in Hdb. now apply Hdb.
Qed.

(** ** Cohort aggregation: invariant, order, recompute *)

(** C9 (amended).  On a database whose cohort documents all have
    consistent bounds (for height and for weight, min is absent exactly
    when max is, and min <= max when both are present), each aggregation
    operation leaves such a database, whether it returns or raises,
    provided the patient documents it scans (those of the ids to add;
    those of the cohort's members) hold no NaN height or weight. *)
Theorem aggregation_preserves_bounds_wf (db : DB) (cid : ObjectId) (ids : list ObjectId) :
  cohorts_wf db ->
  (patients_not_nan db ids ->
   cohorts_wf (fst (add_patients_to_cohort cid ids db))) /\
  ((forall c, cohort_find_one db cid = Some c -> patients_not_nan db (patient_ids c)) ->
   cohorts_wf (fst (set_max_min_patient_dimensions_in_cohort cid db))).
Proof.
  intros Hdb.
  destruct (cohort_find_one db cid) as [c|] eqn:Hc.
  - destruct (cohorts_wf_found cid Hdb Hc) as [Hh Hw].
    erewrite add_patients_to_cohort_run, set_max_min_run by eassumption.
    split.
    + intros Hnan.
      pose proof (@scan_patients_raise_or_wf db ids _ _ Hh Hw Hnan) as Hs.
      destruct (scan_patients db ids (c_height c) (c_weight c)) as [hw|e]; simpl.
      * apply cohort_replace_wf; auto; now apply set_dimensions_wf.
      * apply cohort_replace_wf; auto.
    + intros Hnan.
      pose proof (@scan_patients_raise_or_wf db (patient_ids c) _ _ Hh Hw
                    (Hnan c eq_refl)) as Hs.
      destruct (scan_patients db (patient_ids c) (c_height c) (c_weight c)) as [hw|e];
        simpl; auto.
      apply cohort_replace_wf; auto; now apply set_dimensions_wf.
  - rewrite add_patients_to_cohort_missing, set_max_min_missing by assumption.
    now split.
Qed.

Lemma aggregation_preserves_bounds_wf_witness :
  cohorts_wf (fst (add_patients_to_cohort 100%N [1%N; 5%N] repeated_member_db)) /\
  cohorts_wf (fst (set_max_min_patient_dimensions_in_cohort 100%N repeated_member_db)).
Proof.
  destruct (@aggregation_preserves_bounds_wf repeated_member_db 100%N [1%N; 5%N])
    as [Hadd Hset].
  - repeat constructor.
  - split.
    + apply Hadd. intros i p [<-|[<-|[]]] [= <-]; split; reflexivity.
    + apply Hset. intros c [= <-] i p [<-|[<-|[]]] [= <-]; split; reflexivity.
Defined.

(** C9 as stated fails when a scanned patient holds a NaN: on a cohort
    with no bounds yet, the third test of the chain stores the NaN as min
    and as max, and [nan <= nan] is false. *)
Lemma nan_height_breaks_bounds :
  cohorts_wf nan_height_db /\
  dimensions_after (add_patients_to_cohort 100%N [21%N]) nan_height_db 100%N
    = Some (mk_bounds (Some (NFloat S754_nan)) (Some (NFloat S754_nan)),
            mk_bounds None None) /\
  ~ cohorts_wf (fst (add_patients_to_cohort 100%N [21%N] nan_height_db)) /\
  dimensions_after (add_patients_to_cohort 100%N [21%N] ;;;
                    add_patients_to_cohort 100%N [1%N]) nan_height_db 100%N
    = Some (mk_bounds (Some (NFloat S754_nan)) (Some (NFloat S754_nan)),
            mk_bounds (Some (NInt 44)) (Some (NInt 44))).
Proof.
  split; [repeat constructor|]. split; [reflexivity|]. split; [|reflexivity].
  intros H. inversion H as [|c l [Hh _] _]; subst.
  vm_compute in Hh. discriminate.
Qed.

Section AddOrder.

Variable db : DB.
Variable cid : ObjectId.
Variable c : cohort_doc.
Hypothesis Hc : cohort_find_one db cid = Some c.


End AddOrder.





(** The order matters with a NaN as well, on consistent bounds: from no
    bounds, the NaN height then 160 leave (nan, nan), and 160 then the
    NaN leave (160, 160). *)
Lemma add_order_matters_with_nan :
  dimensions_after (add_patients_to_cohort 100%N [21%N] ;;;
                    add_patients_to_cohort 100%N [1%N]) nan_height_db 100%N
    = Some (mk_bounds (Some (NFloat S754_nan)) (Some (NFloat S754_nan)),
            mk_bounds (Some (NInt 44)) (Some (NInt 44))) /\
  dimensions_after (add_patients_to_cohort 100%N [1%N] ;;;
                    add_patients_to_cohort 100%N [21%N]) nan_height_db 100%N
    = Some (mk_bounds (Some (NInt 160)) (Some (NInt 160)),
            mk_bounds (Some (NInt 44)) (Some (NInt 44))) /\
  ~ add_order_independent_at nan_height_db 100%N 21%N 1%N.
Proof.
  split; [reflexivity|]. split; [reflexivity|].
  unfold add_order_independent_at.
  change (dimensions_after (add_patients_to_cohort 100%N [21%N] ;;;
                            add_patients_to_cohort 100%N [1%N]) nan_height_db 100%N)
    with (Some (mk_bounds (Some (NFloat S754_nan)) (Some (NFloat S754_nan)),
                mk_bounds (Some (NInt 44)) (Some (NInt 44)))).
  change (dimensions_after (add_patients_to_cohort 100%N [1%N] ;;;
                            add_patients_to_cohort 100%N [21%N]) nan_height_db 100%N)
    with (Some (mk_bounds (Some (NInt 160)) (Some (NInt 160)),
                mk_bounds (Some (NInt 44)) (Some (NInt 44)))).
  intros [[H _] _]. exact H.
Qed.

Section Recompute.

Variable cid : ObjectId.

(** When no member's value moves a stored bound, the full recompute
    writes back what was there. *)
Lemma covered_recompute_identity (db : DB) (c : cohort_doc) :
  cohort_find_one db cid = Some c ->
  members_covered db c ->
  set_max_min_patient_dimensions_in_cohort cid db = (db, Ok (Some c)).
Proof.
  intros Hc Hcov. erewrite set_max_min_run by eassumption.
  rewrite scan_patients_covered by exact Hcov. simpl.
  rewrite set_dimensions_same. now rewrite cohort_replace_same.
Qed.

(** One returning call of [add_patients_to_cohort] keeps the bounds among
    those a scan can reach and the members covered, and does not touch
    the patient collection. *)
Lemma add_keeps_members_covered (db db' : DB) (ids r : list ObjectId) (c : cohort_doc) :
  cohort_find_one db cid = Some c ->
  bounds_reached (c_height c) -> bounds_reached (c_weight c) ->
  members_covered db c ->
  add_patients_to_cohort cid ids db = (db', Ok r) ->
  exists c', cohort_find_one db' cid = Some c' /\
             bounds_reached (c_height c') /\ bounds_reached (c_weight c') /\
             members_covered db' c'.
Proof.
  intros Hc Hh Hw Hcov Hrun.
  erewrite add_patients_to_cohort_run in Hrun by eassumption.
  destruct (scan_patients db ids (c_height c) (c_weight c)) as [[h' w']|e] eqn:Hscan;
    [|discriminate].
  injection Hrun as <- _. simpl.
  destruct (scan_patients_ok_inv db ids _ _ Hh Hw Hscan)
    as (Hh' & Hw' & _ & _ & Ah & Aw & Hnew).
  eexists. split; [apply cohort_find_replace with (c := c); auto|].
  simpl. rewrite !bounds_eta. repeat split; auto.
  intros i Hi. simpl in Hi. apply add_to_set_In in Hi.
  simpl. rewrite !bounds_eta.
  destruct Hi as [Hi|Hi].
  - destruct (Hcov i Hi) as (p & Ep & Hph & Hpw). exists p. auto.
  - destruct (Hnew i Hi) as (p & Ep & Hph & Hpw). exists p. auto.
Qed.

Lemma add_batches_keep_members_covered (batches : list (list ObjectId)) :
  forall (db db' : DB) (c : cohort_doc),
    cohort_find_one db cid = Some c ->
    bounds_reached (c_height c) -> bounds_reached (c_weight c) ->
    members_covered db c ->
    add_batches cid batches db = (db', Ok tt) ->
    exists c', cohort_find_one db' cid = Some c' /\ members_covered db' c'.
Proof.
  induction batches as [|ids rest IH]; intros db db' c Hc Hh Hw Hcov; simpl.
  - intros [= <-]. eauto.
  - unfold bind.
    destruct (add_patients_to_cohort cid ids db) as [db1 [r|e]] eqn:Hrun;
      [|discriminate].
    destruct (add_keeps_members_covered ids Hc Hh Hw Hcov Hrun)
      as (c1 & Hc1 & Hh1 & Hw1 & Hcov1).
    intros Hrest. eapply IH; eauto.
Qed.

(** C6.  A cohort that starts with no member and consistent bounds, and
    whose members are then added by any sequence of returning
    [add_patients_to_cohort] calls, is left as it is by the full
    recompute: the call returns the stored cohort document and the
    database, hence all four bound fields, is unchanged. *)
Theorem recompute_after_incremental_unchanged
  (db db1 : DB) (c : cohort_doc) (batches : list (list ObjectId)) :
  cohort_find_one db cid = Some c ->
  patient_ids c = [] ->
  bounds_wf (c_height c) -> bounds_wf (c_weight c) ->
  add_batches cid batches db = (db1, Ok tt) ->
  exists c1,
    cohort_find_one db1 cid = Some c1 /\
    set_max_min_patient_dimensions_in_cohort cid db1 = (db1, Ok (Some c1)).
Proof.
  intros Hc Hempty Hh Hw Hrun.
  assert (Hcov : members_covered db c).
  { intros i Hi. rewrite Hempty in Hi. destruct Hi. }
  destruct (add_batches_keep_members_covered batches Hc
              (@bounds_wf_reached _ Hh) (@bounds_wf_reached _ Hw) Hcov Hrun)
    as (c1 & Hc1 & Hcov1).
  exists c1. split; auto. now apply covered_recompute_identity.
Qed.

End Recompute.

Lemma recompute_after_incremental_unchanged_witness :
  exists c1,
    cohort_find_one (fst (add_batches 100%N [[1%N]; [5%N; 2%N]] sample_db)) 100%N
      = Some c1 /\
    set_max_min_patient_dimensions_in_cohort 100%N
      (fst (add_batches 100%N [[1%N]; [5%N; 2%N]] sample_db))
      = (fst (add_batches 100%N [[1%N]; [5%N; 2%N]] sample_db), Ok (Some c1)).
Proof.
  apply (@recompute_after_incremental_unchanged 100%N sample_db
           (fst (add_batches 100%N [[1%N]; [5%N; 2%N]] sample_db))
           (empty_cohort 100%N) [[1%N]; [5%N; 2%N]]).
  - reflexivity.
  - reflexivity.
  - exact I.
  - exact I.
  - vm_compute. reflexivity.
Defined.

(** The suite's scenario: after patients 850 and 663 are added, the
    bounds are 160..187 and 44..88, and three members are counted once
    patient 740 joins. *)
Example add_batches_sample :
  option_map (fun c => (c_height c, c_weight c, number_patients c))
    (cohort_find_one (fst (add_batches 100%N [[1%N]; [5%N; 2%N]] sample_db)) 100%N)
  = Some (mk_bounds (Some (NInt 160)) (Some (NInt 187)),
          mk_bounds (Some (NInt 44)) (Some (NInt 88)), 3).
Proof. reflexivity. Qed.

(** ** Cohort membership *)

(** C10 (amended).  For an existing cohort, in the database that
    [add_patients_to_cohort] leaves (whether it returns or raises in the
    scan): [number_patients] equals the length of [patient_ids]; a member
    list that had no duplicate before has none after; and when every
    added id is already a member, [patient_ids] is unchanged, and so is
    [number_patients] if it was the length of the list before. *)
Theorem add_keeps_member_list_a_set
  (db : DB) (cid : ObjectId) (ids : list ObjectId) (c : cohort_doc) :
  cohort_find_one db cid = Some c ->
  exists c',
    cohort_find_one (fst (add_patients_to_cohort cid ids db)) cid = Some c' /\
    number_patients c' = Z.of_nat (List.length (patient_ids c')) /\
    (NoDup (patient_ids c) -> NoDup (patient_ids c')) /\
    ((forall x, In x ids -> In x (patient_ids c)) ->
     patient_ids c' = patient_ids c /\
     (number_patients c = Z.of_nat (List.length (patient_ids c)) ->
      number_patients c' = number_patients c)).
Proof.
  intros Hc. erewrite add_patients_to_cohort_run by eassumption.
  assert (Hjoined :
    number_patients (cohort_joined c ids)
      = Z.of_nat (List.length (patient_ids (cohort_joined c ids))) /\
    (NoDup (patient_ids c) -> NoDup (patient_ids (cohort_joined c ids))) /\
    ((forall x, In x ids -> In x (patient_ids c)) ->
     patient_ids (cohort_joined c ids) = patient_ids c /\
     (number_patients c = Z.of_nat (List.length (patient_ids c)) ->
      number_patients (cohort_joined c ids) = number_patients c))).
  { simpl. split; [reflexivity|]. split; [apply add_to_set_NoDup|].
    intros Hin. rewrite (add_to_set_members _ _ Hin). split; auto. }
  destruct (scan_patients db ids (c_height c) (c_weight c)) as [hw|e]; simpl.
  - exists (set_dimensions (fst hw) (snd hw) (cohort_joined c ids)).
    split; [apply cohort_find_replace with (c := c); auto|]. exact Hjoined.
  - exists (cohort_joined c ids).
    split; [apply cohort_find_replace with (c := c); auto|]. exact Hjoined.
Qed.

Lemma add_keeps_member_list_a_set_witness :
  exists c',
    cohort_find_one (fst (add_patients_to_cohort 100%N [1%N; 1%N; 5%N] sample_db)) 100%N
      = Some c' /\
    number_patients c' = Z.of_nat (List.length (patient_ids c')) /\
    (NoDup (patient_ids (empty_cohort 100%N)) -> NoDup (patient_ids c')) /\
    ((forall x, In x [1%N; 1%N; 5%N] -> In x (patient_ids (empty_cohort 100%N))) ->
     patient_ids c' = patient_ids (empty_cohort 100%N) /\
     (number_patients (empty_cohort 100%N)
        = Z.of_nat (List.length (patient_ids (empty_cohort 100%N))) ->
      number_patients c' = number_patients (empty_cohort 100%N))).
Proof.
  apply (@add_keeps_member_list_a_set sample_db 100%N [1%N; 1%N; 5%N]
           (empty_cohort 100%N)).
  reflexivity.
Defined.

(** C10 as stated fails on a cohort whose member list already holds an id
    twice: [$addToSet] appends the new id and leaves the repetition. *)
Lemma add_leaves_stored_duplicates :
  snd (add_patients_to_cohort 100%N [5%N] repeated_member_db) = Ok [1%N; 1%N; 5%N] /\
  option_map patient_ids
    (cohort_find_one (fst (add_patients_to_cohort 100%N [5%N] repeated_member_db)) 100%N)
    = Some [1%N; 1%N; 5%N] /\
  ~ NoDup [1%N; 1%N; 5%N].
Proof.
  split; [reflexivity|]. split; [reflexivity|].
  intros H. inversion H as [|x l Hnot _]; subst. apply Hnot. now left.
Qed.

(** ** The full recompute against its specification *)

Section FromScratch.

(** On stored bounds that a scan can reach, one step of the chain takes
    the smaller of the min and the value, and the larger of the max and
    the value. *)
Lemma update_bounds_present_step (m mx x : num) :
  bounds_reached (mk_bounds (Some m) (Some mx)) ->
  update_bounds (mk_bounds (Some m) (Some mx)) (Some x) =
  mk_bounds (Some (num_smaller m x)) (Some (num_larger mx x)) /\
  bounds_reached (mk_bounds (Some (num_smaller m x)) (Some (num_larger mx x))).
Proof.
  intros Hle. unfold num_smaller, num_larger. bounds_crush.
Qed.

Lemma fold_update_bounds_present (vs : list (option num)) :
  forall m mx, bounds_reached (mk_bounds (Some m) (Some mx)) ->
    fold_left update_bounds vs (mk_bounds (Some m) (Some mx)) =
    mk_bounds (Some (fold_left num_smaller (present_values vs) m))
              (Some (fold_left num_larger (present_values vs) mx)).
Proof.
  induction vs as [|[x|] vs IH]; intros m mx Hle.
  - reflexivity.
  - destruct (update_bounds_present_step x Hle) as [Hstep Hle'].
    cbn [fold_left present_values flat_map app]. rewrite Hstep. now apply IH.
  - cbn [fold_left present_values flat_map app].
    change (update_bounds (mk_bounds (Some m) (Some mx)) None)
      with (mk_bounds (Some m) (Some mx)).
    now apply IH.
Qed.

Lemma fold_update_bounds_null (vs : list (option num)) :
  fold_left update_bounds vs (mk_bounds None None) = bounds_from_scratch vs.
Proof.
  induction vs as [|[x|] vs IH].
  - reflexivity.
  - unfold bounds_from_scratch. cbn [fold_left present_values flat_map app].
    change (update_bounds (mk_bounds None None) (Some x))
      with (mk_bounds (Some x) (Some x)).
    apply fold_update_bounds_present.
    apply (@update_bounds_reached (mk_bounds None None) (Some x)). exact I.
  - exact IH.
Qed.

Variable db : DB.

Lemma scan_patients_fold (ids : list ObjectId) :
  forall h w,
    (forall id_, In id_ ids -> patient_find_one db id_ <> None) ->
    scan_patients db ids h w =
      Ok (fold_left update_bounds
            (map (fun id_ => match patient_find_one db id_ with
                             | Some p => p_height p
                             | None => None
                             end) ids) h,
          fold_left update_bounds
            (map (fun id_ => match patient_find_one db id_ with
                             | Some p => p_weight p
                             | None => None
                             end) ids) w).
Proof.
  induction ids as [|i ids IH]; intros h w Hall; simpl; auto.
  destruct (patient_find_one db i) as [p|] eqn:Ep.
  - apply IH. intros j Hj. apply Hall. now right.
  - exfalso. apply (Hall i); [now left|exact Ep].
Qed.

(** On a cohort whose stored bounds are all absent and whose members all
    resolve, the recompute does compute the bounds from scratch. *)
Lemma recompute_from_null_bounds (cid : ObjectId) (c : cohort_doc) :
  cohort_find_one db cid = Some c ->
  c_height c = mk_bounds None None ->
  c_weight c = mk_bounds None None ->
  (forall id_, In id_ (patient_ids c) -> patient_find_one db id_ <> None) ->
  exists db' c',
    set_max_min_patient_dimensions_in_cohort cid db = (db', Ok (Some c')) /\
    c_height c' = bounds_from_scratch (member_values db p_height c) /\
    c_weight c' = bounds_from_scratch (member_values db p_weight c).
Proof.
  intros Hc Hh Hw Hall.
  erewrite set_max_min_run by eassumption.
  rewrite scan_patients_fold by exact Hall.
  rewrite Hh, Hw, !fold_update_bounds_null.
  eexists _, _. split; [reflexivity|].
  simpl. rewrite !bounds_eta. split; reflexivity.
Qed.

End FromScratch.

(** C2 at a concrete history.  Patient 850 (height 160) joins the empty
    cohort, then the height is updated to 170, then the full recompute
    runs.  The only member's height is 170, so the bounds from scratch are
    170..170; the recompute starts from the stored bounds instead and
    keeps the stale minimum 160. *)
Theorem recompute_keeps_stale_minimum :
  exists db' c',
    (add_patients_to_cohort 100%N [1%N] ;;;
     update_human_demographics square_pow 850
       (mk_demographics PyNone PyNone (PyInt 170) PyNone PyNone) ;;;
     set_max_min_patient_dimensions_in_cohort 100%N) sample_db
      = (db', Ok (Some c')) /\
    patient_ids c' = [1%N] /\
    bounds_from_scratch (member_values db' p_height c')
      = mk_bounds (Some (NInt 170)) (Some (NInt 170)) /\
    c_height c' = mk_bounds (Some (NInt 160)) (Some (NInt 170)).
Proof.
  eexists _, _. split; [vm_compute; reflexivity|].
  repeat split.
Qed.

(** ** Demographic update and derived metrics *)

Section UpdateMany.

Context {A : Type}.
Variable p : A -> bool.
Variable f : A -> A.
Hypothesis Hf : forall x, p (f x) = p x.



End UpdateMany.

Section Demographics.

Variable math_pow : float -> float -> result float.
Variable db : DB.
Variable id : Z.
Variable p0 : patient_doc.
Hypothesis Hfound : find_one (patient_matches (ByInternalId id)) (patient db) = Some p0.






End Demographics.



(** The suite's update: height 200.0 then weight 93.0 in one call. *)
Example update_843_demographics :
  option_map (fun p => (p_height p, p_weight p, p_bmi p, p_bsa p))
    (patient_find_one
       (fst (update_human_demographics square_pow 843
               (mk_demographics (PyInt 63) (PyStr "male") (PyFloat (float_of_ratio 200 1))
                  (PyFloat (float_of_ratio 93 1)) (PyStr "north_south_america"))
               sample_db)) 3%N)
  = Some (Some (NFloat (float_of_ratio 200 1)), Some (NFloat (float_of_ratio 93 1)),
          Some (NFloat (float_of_ratio 2325 100)), Some (NFloat (float_of_ratio 227 100))).
Proof. reflexivity. Qed.


(** ** Validation of the supplied fields *)

(** C5 at a concrete input.  The age 45.5 is a float between 0 and 120,
    which the first check accepts; the membership test in [range(0, 121)]
    then rejects it, whatever the database and the human. *)
Theorem fractional_age_is_rejected (math_pow : float -> float -> result float)
  (db : DB) (id : Z) :
  isinstance_int_float (PyFloat (float_of_ratio 91 2)) = true /\
  update_human_demographics math_pow id (age_only (PyFloat (float_of_ratio 91 2))) db
    = (db, Raise (ValueError "Age not inside the valid range.")).
Proof. split; reflexivity. Qed.

(** Integer ages and integer-valued floats within the range pass the same
    test. *)
Example whole_age_is_accepted :
  in_range_0_121 (PyInt 0) = true /\ in_range_0_121 (PyInt 120) = true /\
  in_range_0_121 (PyFloat (float_of_ratio 45 1)) = true /\ in_range_0_121 (PyInt 121) = false.
Proof. repeat split. Qed.

(** ** Batch ingestion *)

Section Upload.

Variable jsondir : jsondir_t.
Variable flat : bool.

(** The validation of one entry reads the database and never writes it. *)
Lemma validate_patient_reads_only (entry : Z * series_t) (db : DB) :
  fst (validate_patient jsondir flat entry db) = db.
Proof.
  destruct entry as [human s].
  unfold validate_patient, get_patient_collection_m, when, bind, get_db, lift.
  cbv beta iota.
  destruct (get_patient_collection db human s) as [[|p found]|e]; simpl; auto.
  destruct (patient_files jsondir flat human s) as [[[pf|] [mf|]]|e]; simpl; auto.
Qed.

Lemma validate_patient_rejects_present (entry : Z * series_t) (db : DB) :
  already_present db entry ->
  exists e, validate_patient jsondir flat entry db = (db, Raise e).
Proof.
  destruct entry as [human s]. unfold already_present. simpl. intros Hpresent.
  unfold validate_patient, get_patient_collection_m, when, bind, get_db, lift.
  cbv beta iota.
  destruct (get_patient_collection db human s) as [[|p found]|e]; simpl.
  - congruence.
  - eauto.
  - eauto.
Qed.

Lemma validation_reads_only (l : list (Z * series_t)) (db : DB) :
  fst (for_each l (validate_patient jsondir flat) db) = db.
Proof.
  induction l as [|entry l IH]; simpl; auto.
  unfold bind.
  pose proof (validate_patient_reads_only entry db) as H1.
  destruct (validate_patient jsondir flat entry db) as [db1 [[]|e]];
    simpl in H1; subst db1; auto.
Qed.

Lemma validation_rejects_present (l : list (Z * series_t)) (entry : Z * series_t)
  (db : DB) :
  In entry l -> already_present db entry ->
  exists e, for_each l (validate_patient jsondir flat) db = (db, Raise e).
Proof.
  intros Hin Hpresent. induction l as [|x l IH]; simpl in *; [tauto|].
  unfold bind.
  pose proof (validate_patient_reads_only x db) as H1.
  destruct (validate_patient jsondir flat x db) as [db1 [[]|e]] eqn:Hx;
    simpl in H1; subst db1.
  - destruct Hin as [->|Hin]; auto.
    destruct (validate_patient_rejects_present Hpresent) as [e He].
    congruence.
  - eauto.
Qed.

(** In the insertion loop the look-up is repeated for each entry: an entry
    whose record came to exist while the earlier entries were inserted
    stops the call there, and what was inserted before it stays. *)
Lemma upload_all_rejects_present (now : Z) (l1 l2 : list (Z * series_t))
  (entry : Z * series_t) :
  forall (db db1 : DB) (ids : list ObjectId),
    upload_all jsondir flat now l1 db = (db1, Ok ids) ->
    already_present db1 entry ->
    exists e, upload_all jsondir flat now (l1 ++ entry :: l2) db = (db1, Raise e).
Proof.
  induction l1 as [|x l1 IH]; intros db db1 ids Hrun Hpresent; simpl in *.
  - injection Hrun as <- _.
    destruct entry as [human s]. unfold already_present in Hpresent. simpl in Hpresent.
    unfold upload_patient, get_patient_collection_m, bind, get_db, lift.
    cbv beta iota.
    destruct (get_patient_collection db human s) as [[|p found]|e]; simpl.
    + congruence.
    + eauto.
    + eauto.
  - unfold bind in *.
    destruct (upload_patient jsondir flat now x db) as [d [oid|e]]; [|discriminate].
    destruct (upload_all jsondir flat now l1 d) as [d' [ids'|e]] eqn:Hrest;
      [|discriminate].
    injection Hrun as <- _.
    destruct (IH _ _ _ Hrest Hpresent) as [e He].
    rewrite He. eauto.
Qed.

End Upload.

(** C4 (amended).  When the look-up of one of the requested entries does
    not come back empty in the database as the call finds it, the call
    raises and leaves the database as it found it: no patient and no
    model document is inserted. *)
Theorem upload_rejects_existing_patient
  (jsondir : jsondir_t) (now : Z)
  (patients_list : option (list (Z * series_t))) (internal_id_list : option (list Z))
  (db : DB) (entry : Z * series_t) :
  In entry (requested_patients jsondir patients_list internal_id_list) ->
  already_present db entry ->
  exists e,
    upload_patients jsondir now patients_list internal_id_list db = (db, Raise e).
Proof.
  intros Hin Hpresent. unfold upload_patients, requested_patients in *.
  destruct patients_list as [pl|], internal_id_list as [[|i ids]|];
    try (eexists; reflexivity).
  - (* patients_list only *)
    unfold bind at 1. cbn [nonempty ret].
    destruct (@validation_rejects_present jsondir false pl entry db Hin Hpresent)
      as [e He].
    unfold bind. rewrite He. eauto.
  - (* internal_id_list only, not empty *)
    cbn [nonempty]. unfold bind at 1, bind at 1, lift.
    destruct (patients_of_internal_ids jsondir (i :: ids)) as [l|e];
      [|eexists; reflexivity].
    cbn [ret].
    destruct (@validation_rejects_present jsondir true l entry db Hin Hpresent)
      as [e He].
    unfold bind. rewrite He. eauto.
Qed.

Lemma upload_rejects_existing_patient_witness :
  exists e,
    upload_patients upload_data 0 (Some [(722, SStr "SER00004"); (850, SStr "SER00002")])
      None sample_db = (sample_db, Raise e).
Proof.
  apply (@upload_rejects_existing_patient upload_data 0
           (Some [(722, SStr "SER00004"); (850, SStr "SER00002")]) None sample_db
           (850, SStr "SER00002")).
  - simpl. auto.
  - unfold already_present. vm_compute. discriminate.
Defined.

(** The first upload of the suite: human 722 is inserted with its model. *)
Example upload_722 :
  let out := upload_patients upload_data 0 (Some [(722, SStr "SER00004")]) None
               sample_db in
  snd out = Ok [7%N] /\
  List.length (patient (fst out)) = 6%nat /\ List.length (models (fst out)) = 1%nat /\
  is_ok (get_patient_collection (fst out) 722 (SStr "SER00004")) = true.
Proof. repeat split. Qed.

(** C4 as stated fails when the duplicate comes to exist during the call:
    with the same entry listed twice, validation passes, the first
    occurrence is inserted (one model and one patient document), and the
    second occurrence then raises. *)
Lemma upload_rejection_is_not_atomic :
  let twice := Some [(722, SStr "SER00004"); (722, SStr "SER00004")] in
  snd (upload_patients upload_data 0 twice None sample_db)
    = Raise (SystemExit "Patient already present in the database.") /\
  List.length (patient (fst (upload_patients upload_data 0 twice None sample_db)))
    = S (List.length (patient sample_db)) /\
  List.length (models (fst (upload_patients upload_data 0 twice None sample_db)))
    = S (List.length (models sample_db)) /\
  ~ rejection_is_atomic upload_data 0 twice None sample_db.
Proof.
  cbv zeta. split; [reflexivity|]. split; [reflexivity|]. split; [reflexivity|].
  intros Hatomic.
  specialize (Hatomic _ _ (surjective_pairing _)).
  apply (f_equal (fun d => List.length (patient d))) in Hatomic.
  vm_compute in Hatomic. discriminate.
Qed.

(** * Further properties of the code *)

(** ** Look-up *)

Section LookupMore.

Variable db : DB.
Variable id : Z.

Lemma to_query_ok (s : series_t) (l : list patient_doc) :
  to_query db id s = Ok l ->
  l = patient_find db (to_query_filter id s) /\ (List.length l <= 1)%nat.
Proof.
  unfold to_query.
  destruct (1 <? List.length (patient_find db (to_query_filter id s)))%nat eqn:E;
    [discriminate|].
  intros [= <-]. apply Nat.ltb_ge in E. auto.
Qed.

Lemma get_patient_collection_ok (s : series_t) (l : list patient_doc) :
  get_patient_collection db id s = Ok l ->
  exists s', to_query db id s' = Ok l.
Proof.
  unfold get_patient_collection, get_patient_collection_traced.
  destruct s as [|x|xs]; simpl; eauto.
  destruct (to_query db id (SList xs)) as [[|p q]|e] eqn:E; simpl.
  - destruct (reversed_pair xs) as [s'|e]; simpl; eauto. discriminate.
  - intros [= <-]. eauto.
  - discriminate.
Qed.

Lemma filter_matches_id (f : patient_filter) (p : patient_doc) :
  (f = ByInternalId id \/ exists s, f = ByInternalInfo id s) ->
  patient_matches f p = true -> patient_matches (ByInternalId id) p = true.
Proof.
  unfold patient_matches. destruct (p_internal_info p) as [info|]; auto.
  intros [->|[s ->]]; auto. intros H. apply andb_true_iff in H. tauto.
Qed.

(** X1.  A look-up that returns gives at most one record, and that record
    belongs to the human asked for: callers may take [query[0]] of a
    non-empty answer as the human's record. *)
Theorem lookup_returns_at_most_one_of_the_human (s : series_t) (l : list patient_doc) :
  get_patient_collection db id s = Ok l ->
  (List.length l <= 1)%nat /\
  Forall (fun p => patient_matches (ByInternalId id) p = true) l.
Proof.
  intros H. destruct (get_patient_collection_ok s H) as [s' Hq].
  destruct (to_query_ok s' Hq) as [-> Hlen]. split; auto.
  apply Forall_forall. intros p Hp. unfold patient_find in Hp.
  apply filter_In in Hp. destruct Hp as [_ Hp].
  apply filter_matches_id with (f := to_query_filter id s'); auto.
  unfold to_query_filter. destruct (series_truthy s'); eauto.
Qed.

(** X2.  A list of fewer than two labels as [series]: when the first
    query finds nothing, the retry subscripts the list and the call ends
    in an IndexError instead of an empty answer. *)
Theorem lookup_short_list_without_match_raises (l : list string) :
  patient_find db (to_query_filter id (SList l)) = [] ->
  (List.length l < 2)%nat ->
  get_patient_collection db id (SList l) =
    Raise (IndexError "list index out of range").
Proof.
  intros Hnone Hshort.
  unfold get_patient_collection, get_patient_collection_traced.
  rewrite (to_query_empty db id (SList l) Hnone).
  destruct l as [|a [|b l]]; simpl in *; auto. lia.
Qed.

Lemma list_string_eqb_refl (l : list string) : list_string_eqb l l = true.
Proof. induction l as [|x l IH]; simpl; auto. now rewrite String.eqb_refl. Qed.

Lemma series_eqb_refl (s : series_t) : series_eqb s s = true.
Proof.
  destruct s; simpl; auto using String.eqb_refl, list_string_eqb_refl.
Qed.

Lemma filter_of_single {A} (P Q : A -> bool) (l : list A) (x : A) :
  (forall y, P y = true -> Q y = true) ->
  filter Q l = [x] -> P x = true -> filter P l = [x].
Proof.
  intros HPQ. induction l as [|y l IH]; simpl; [discriminate|].
  destruct (Q y) eqn:Eq.
  - intros [= -> Hrest] Hx. rewrite Hx. f_equal.
    clear IH. induction l as [|z l IHl]; simpl in *; auto.
    destruct (Q z) eqn:Ez; [discriminate|].
    destruct (P z) eqn:Ep; [apply HPQ in Ep; congruence|auto].
  - intros Hrest Hx. destruct (P y) eqn:Ep; [apply HPQ in Ep; congruence|auto].
Qed.

(** X3.  For a human with exactly one patient document, the look-up by
    internal id alone and the look-up by internal id and the stored
    series (a label or a list) return that same document. *)
Theorem lookup_by_id_alone_agrees (p : patient_doc) (info : internal_info_t) :
  patient_find db (ByInternalId id) = [p] ->
  p_internal_info p = Some info ->
  get_patient_collection db id SNone = Ok [p] /\
  get_patient_collection db id (series info) = Ok [p].
Proof.
  intros Hone Hinfo.
  assert (Hnone : get_patient_collection db id SNone = Ok [p]).
  { unfold get_patient_collection, get_patient_collection_traced, to_query. simpl.
    change (to_query_filter id SNone) with (ByInternalId id).
    now rewrite Hone. }
  split; auto.
  assert (Hid : internal_id info = id).
  { assert (Hin : In p (patient_find db (ByInternalId id))) by (rewrite Hone; now left).
    apply filter_In in Hin. destruct Hin as [_ Hm].
    unfold patient_matches in Hm. rewrite Hinfo in Hm. now apply Z.eqb_eq in Hm. }
  assert (Hq : to_query db id (series info) = Ok [p]).
  { unfold to_query, to_query_filter.
    destruct (series_truthy (series info)).
    - unfold patient_find.
      rewrite (@filter_of_single _ (patient_matches (ByInternalInfo id (series info)))
                 (patient_matches (ByInternalId id)) (patient db) p); auto.
      + intros y. apply filter_matches_id. eauto.
      + unfold patient_matches. rewrite Hinfo, Hid, Z.eqb_refl, series_eqb_refl.
        reflexivity.
    - now rewrite Hone. }
  unfold get_patient_collection, get_patient_collection_traced.
  destruct (series info); rewrite Hq; reflexivity.
Qed.

End LookupMore.

Lemma lookup_returns_at_most_one_of_the_human_witness :
  (List.length [pat850] <= 1)%nat /\
  Forall (fun p => patient_matches (ByInternalId 850) p = true) [pat850].
Proof.
  apply (@lookup_returns_at_most_one_of_the_human sample_db 850 (SStr "SER00002")).
  reflexivity.
Defined.

Lemma lookup_short_list_without_match_raises_witness :
  get_patient_collection sample_db 740 (SList ["SER00008"]) =
    Raise (IndexError "list index out of range").
Proof.
  apply (@lookup_short_list_without_match_raises sample_db 740 ["SER00008"]).
  - reflexivity.
  - simpl. lia.
Defined.

Lemma lookup_by_id_alone_agrees_witness :
  get_patient_collection sample_db 740 SNone = Ok [pat740] /\
  get_patient_collection sample_db 740 (SList ["SER00008"; "SER00009"]) = Ok [pat740].
Proof.
  apply (@lookup_by_id_alone_agrees sample_db 740 pat740
           (mk_internal_info 740 (SList ["SER00008"; "SER00009"])));
    reflexivity.
Defined.

(** ** Model documents *)

Section ModelList.

Variable db : DB.
Variable id : Z.
Variable s : series_t.

Lemma lookup_ok_shape (l : list patient_doc) :
  get_patient_collection db id s = Ok l -> l = [] \/ exists p, l = [p].
Proof.
  intros H. destruct (get_patient_collection_ok db id s H) as [s' Hq].
  destruct (to_query_ok db id s' Hq) as [_ Hlen].
  destruct l as [|p [|q l]]; simpl in Hlen; eauto. lia.
Qed.

(** X4.  [get_patient_model_list] returns exactly when the look-up gives
    one record and the ["models"] reference of that record resolves to a
    model document; an unknown patient, an ambiguous one, a missing or
    dangling reference all end in an exception. *)
Theorem model_list_returns_iff_resolved :
  is_ok (get_patient_model_list db id s) = true <->
  exists p m,
    get_patient_collection db id s = Ok [p] /\
    models_find_one db (p_models p) = Some m.
Proof.
  unfold get_patient_model_list, get_patient_model_collection. split.
  - destruct (get_patient_collection db id s) as [l|e] eqn:Hl; [|discriminate].
    destruct (lookup_ok_shape Hl) as [->|[p ->]]; simpl; [discriminate|].
    destruct (models_find_one db (p_models p)) as [m|] eqn:Hm; [|discriminate].
    eauto.
  - intros (p & m & -> & Hm). simpl. now rewrite Hm.
Qed.

Lemma update_patient_model_list_run (models_list : list string) :
  update_patient_model_list id models_list s db =
    match get_patient_collection db id s with
    | Raise e => (db, Raise e)
    | Ok [] => (db, Raise (IndexError "list index out of range"))
    | Ok (p :: _) =>
        let db' := mk_db (patient db)
                     (update_one (model_has_id (p_models p)) (set_models models_list)
                                 (models db))
                     (patient_cohort db) (next_oid db) in
        (db', Ok (models_find_one db' (p_models p)))
    end.
Proof.
  unfold update_patient_model_list, get_patient_collection_m, bind, get_db, lift.
  cbv beta iota.
  destruct (get_patient_collection db id s) as [[|p l]|e]; reflexivity.
Qed.

Lemma update_one_keeps {A B} (P : A -> bool) (f : A -> A) (g : A -> B) (l : list A) :
  (forall x, g (f x) = g x) -> map g (update_one P f l) = map g l.
Proof.
  intros Hg. induction l as [|d l IH]; simpl; auto.
  destruct (P d); simpl; [now rewrite Hg | now rewrite IH].
Qed.

(** X5.  [update_patient_model_list] writes a model document and nothing
    else: the patient and cohort collections are untouched, the model
    documents keep their number, order and ids, and a call that raises
    leaves the whole database as it was. *)
Theorem update_model_list_frame (models_list : list string) :
  let out := update_patient_model_list id models_list s db in
  patient (fst out) = patient db /\
  patient_cohort (fst out) = patient_cohort db /\
  map m_id (models (fst out)) = map m_id (models db) /\
  (is_ok (snd out) = false -> fst out = db).
Proof.
  cbv zeta. rewrite update_patient_model_list_run.
  destruct (get_patient_collection db id s) as [[|p l]|e]; simpl;
    repeat split; auto; try discriminate.
  now apply update_one_keeps.
Qed.

(** X6.  Writing a model list and reading it back: when the patient
    resolves to one record whose ["models"] reference resolves, the
    update returns the rewritten model document, and
    [get_patient_model_list] on the resulting database returns the list
    that was written. *)
Theorem model_list_round_trip
  (models_list : list string) (p : patient_doc) (m : model_doc) :
  get_patient_collection db id s = Ok [p] ->
  models_find_one db (p_models p) = Some m ->
  exists db',
    update_patient_model_list id models_list s db
      = (db', Ok (Some (set_models models_list m))) /\
    get_patient_model_list db' id s = Ok models_list.
Proof.
  intros Hp Hm. rewrite update_patient_model_list_run, Hp. cbv zeta.
  eexists. split.
  - f_equal. f_equal. unfold models_find_one. simpl.
    unfold models_find_one in Hm.
    rewrite (update_one_found _ _ _ Hm).
    apply find_one_replaced with (c := m); auto.
    exact (find_one_holds _ _ Hm).
  - unfold get_patient_model_list, get_patient_model_collection.
    change (get_patient_collection
              (mk_db (patient db)
                 (update_one (model_has_id (p_models p)) (set_models models_list)
                    (models db)) (patient_cohort db) (next_oid db)) id s)
      with (get_patient_collection db id s).
    rewrite Hp. simpl.
    unfold models_find_one in *. simpl.
    rewrite (update_one_found _ _ _ Hm).
    rewrite find_one_replaced with (c := m); auto.
    exact (find_one_holds _ _ Hm).
Qed.

End ModelList.

Lemma model_list_round_trip_witness :
  exists db',
    update_patient_model_list 850 ["frame-2"; "frame-3"] SNone modelled_db
      = (db', Ok (Some (set_models ["frame-2"; "frame-3"]
                          (mk_model 50%N ["frame-2"] None)))) /\
    get_patient_model_list db' 850 SNone = Ok ["frame-2"; "frame-3"].
Proof.
  apply (@model_list_round_trip modelled_db 850 SNone ["frame-2"; "frame-3"]
           (mk_patient 1%N (Some (mk_internal_info 850 (SStr "SER00002")))
              (Some (NInt 46)) None (Some (NInt 160)) (Some (NInt 44)) None None None
              (Some 50%N) None)
           (mk_model 50%N ["frame-2"] None));
    reflexivity.
Defined.

(** ** Cohorts: membership, failure, monotone bounds *)

Lemma add_to_set_step (arr : list ObjectId) (x : ObjectId) (xs : list ObjectId) :
  add_to_set arr (x :: xs) =
  add_to_set (if existsb (N.eqb x) arr then arr else arr ++ [x]) xs.
Proof. reflexivity. Qed.

Section CohortMore.

Variable db : DB.
Variable cid : ObjectId.

Lemma add_to_set_appends (xs : list ObjectId) :
  forall arr,
  exists suffix,
    add_to_set arr xs = arr ++ suffix /\
    NoDup suffix /\
    (forall x, In x suffix <-> In x xs /\ ~ In x arr).
Proof.
  induction xs as [|x xs IH]; intros arr.
  - exists []. simpl. rewrite app_nil_r. repeat split; try tauto; constructor.
  - rewrite add_to_set_step.
    destruct (existsb (N.eqb x) arr) eqn:E.
    + apply existsb_eqb_In in E.
      destruct (IH arr) as (suf & Heq & Hnd & Hin).
      exists suf. split; [exact Heq|]. split; [exact Hnd|].
      intros y. rewrite Hin. simpl. split; [tauto|].
      intros [[<-|Hy] Hn]; tauto.
    + assert (Hx : ~ In x arr).
      { intros Hx. apply existsb_eqb_In in Hx. congruence. }
      destruct (IH (arr ++ [x])) as (suf & Heq & Hnd & Hin).
      exists (x :: suf). split; [|split].
      * rewrite Heq, <- app_assoc. reflexivity.
      * constructor; auto. intros Hxs. apply Hin in Hxs.
        destruct Hxs as [_ Hn]. apply Hn. apply in_or_app. right. now left.
      * intros y. simpl. rewrite Hin, in_app_iff. simpl.
        destruct (N.eq_dec x y) as [->|Hne]; tauto.
Qed.

(** X7.  [add_patients_to_cohort] never removes or moves a member: on an
    existing cohort, whether the call returns or raises in the scan, the
    stored list is the old list followed by the ids that were not members
    yet, each once. *)
Theorem add_appends_new_members (ids : list ObjectId) (c : cohort_doc) :
  cohort_find_one db cid = Some c ->
  exists c' suffix,
    cohort_find_one (fst (add_patients_to_cohort cid ids db)) cid = Some c' /\
    patient_ids c' = patient_ids c ++ suffix /\
    NoDup suffix /\
    (forall x, In x suffix <-> In x ids /\ ~ In x (patient_ids c)).
Proof.
  intros Hc. erewrite add_patients_to_cohort_run by eassumption.
  destruct (add_to_set_appends ids (patient_ids c)) as (suf & Heq & Hnd & Hin).
  destruct (scan_patients db ids (c_height c) (c_weight c)) as [hw|e]; simpl.
  - exists (set_dimensions (fst hw) (snd hw) (cohort_joined c ids)), suf.
    split; [apply cohort_find_replace with (c := c); auto|]. simpl. auto.
  - exists (cohort_joined c ids), suf.
    split; [apply cohort_find_replace with (c := c); auto|]. simpl. auto.
Qed.

(** X8.  A cohort id with no document: both aggregation operations raise
    a TypeError and leave the database as it was. *)
Theorem missing_cohort_is_a_type_error (ids : list ObjectId) :
  cohort_find_one db cid = None ->
  add_patients_to_cohort cid ids db = (db, Raise none_type_error) /\
  set_max_min_patient_dimensions_in_cohort cid db = (db, Raise none_type_error).
Proof.
  intros H. split.
  - now apply add_patients_to_cohort_missing.
  - now apply set_max_min_missing.
Qed.

Lemma scan_patients_missing (ids : list ObjectId) :
  forall h w,
    (exists i, In i ids /\ patient_find_one db i = None) ->
    scan_patients db ids h w = Raise none_type_error.
Proof.
  induction ids as [|i ids IH]; intros h w (j & Hj & Hnone); simpl in *; [tauto|].
  destruct (patient_find_one db i) as [p|] eqn:Ep; auto.
  apply IH. destruct Hj as [->|Hj]; [congruence|eauto].
Qed.

(** X9.  An id with no patient document among the ids to add: the call
    raises a TypeError, but the ids have already been joined to the
    member list and counted; only the bounds are left as they were. *)
Theorem add_unknown_patient_joins_then_raises
  (ids : list ObjectId) (c : cohort_doc) (i : ObjectId) :
  cohort_find_one db cid = Some c ->
  In i ids -> patient_find_one db i = None ->
  exists c',
    add_patients_to_cohort cid ids db
      = (cohort_replace db cid c', Raise none_type_error) /\
    cohort_find_one (cohort_replace db cid c') cid = Some c' /\
    In i (patient_ids c') /\
    number_patients c' = Z.of_nat (List.length (patient_ids c')) /\
    c_height c' = c_height c /\ c_weight c' = c_weight c.
Proof.
  intros Hc Hi Hnone. erewrite add_patients_to_cohort_run by eassumption.
  rewrite scan_patients_missing by eauto.
  exists (cohort_joined c ids). repeat split.
  - apply cohort_find_replace with (c := c); auto.
  - simpl. apply add_to_set_In. now right.
Qed.

(** X10.  The bounds only widen: on a cohort with consistent bounds,
    after either aggregation operation (returning or raising) every value
    that lay within the old height (weight) bounds lies within the new
    ones. *)
Theorem bounds_never_shrink (ids : list ObjectId) (c : cohort_doc) :
  cohort_find_one db cid = Some c ->
  bounds_wf (c_height c) -> bounds_wf (c_weight c) ->
  (exists c',
     cohort_find_one (fst (add_patients_to_cohort cid ids db)) cid = Some c' /\
     (forall v, within (c_height c) v -> within (c_height c') v) /\
     (forall v, within (c_weight c) v -> within (c_weight c') v)) /\
  (exists c',
     cohort_find_one (fst (set_max_min_patient_dimensions_in_cohort cid db)) cid
       = Some c' /\
     (forall v, within (c_height c) v -> within (c_height c') v) /\
     (forall v, within (c_weight c) v -> within (c_weight c') v)).
Proof.
  intros Hc Hh Hw.
  erewrite add_patients_to_cohort_run, set_max_min_run by eassumption.
  split.
  - destruct (scan_patients db ids (c_height c) (c_weight c)) as [[h' w']|e] eqn:Hs;
      simpl.
    + destruct (scan_patients_ok_inv db ids _ _ (@bounds_wf_reached _ Hh)
                  (@bounds_wf_reached _ Hw) Hs) as (_ & _ & Kh & Kw & _).
      eexists. split; [apply cohort_find_replace with (c := c); auto|].
      simpl. rewrite !bounds_eta. auto.
    + eexists. split; [apply cohort_find_replace with (c := c); auto|]. auto.
  - destruct (scan_patients db (patient_ids c) (c_height c) (c_weight c))
      as [[h' w']|e] eqn:Hs; simpl.
    + destruct (scan_patients_ok_inv db _ _ _ (@bounds_wf_reached _ Hh)
                  (@bounds_wf_reached _ Hw) Hs) as (_ & _ & Kh & Kw & _).
      eexists. split; [apply cohort_find_replace with (c := c); auto|].
      simpl. rewrite !bounds_eta. auto.
    + eauto.
Qed.

(** X11.  The full recompute is idempotent on consistent bounds: a second
    call right after a returning one returns the same document and leaves
    the database unchanged. *)
Theorem recompute_twice_is_recompute_once
  (c : cohort_doc) (db1 : DB) (r : option cohort_doc) :
  cohort_find_one db cid = Some c ->
  bounds_wf (c_height c) -> bounds_wf (c_weight c) ->
  set_max_min_patient_dimensions_in_cohort cid db = (db1, Ok r) ->
  set_max_min_patient_dimensions_in_cohort cid db1 = (db1, Ok r).
Proof.
  intros Hc Hh Hw Hrun.
  erewrite set_max_min_run in Hrun by eassumption.
  destruct (scan_patients db (patient_ids c) (c_height c) (c_weight c))
    as [[h' w']|e] eqn:Hs; [|discriminate].
  injection Hrun as <- <-. simpl.
  destruct (scan_patients_ok_inv db _ _ _ (@bounds_wf_reached _ Hh)
              (@bounds_wf_reached _ Hw) Hs) as (_ & _ & _ & _ & _ & _ & Hcov).
  apply covered_recompute_identity.
  - apply cohort_find_replace with (c := c); auto.
  - intros i Hi. simpl in Hi. simpl. rewrite !bounds_eta.
    destruct (Hcov i Hi) as (p & Ep & Hph & Hpw). exists p. auto.
Qed.

Lemma add_ok_inv (ids r : list ObjectId) (db' : DB) :
  add_patients_to_cohort cid ids db = (db', Ok r) ->
  exists c hw,
    cohort_find_one db cid = Some c /\
    db' = cohort_replace db cid
            (set_dimensions (fst hw) (snd hw) (cohort_joined c ids)) /\
    r = add_to_set (patient_ids c) ids.
Proof.
  intros Hrun.
  destruct (cohort_find_one db cid) as [c|] eqn:Hc.
  - erewrite add_patients_to_cohort_run in Hrun by eassumption.
    destruct (scan_patients db ids (c_height c) (c_weight c)) as [hw|e];
      [|discriminate].
    injection Hrun as <- <-. eauto.
  - rewrite add_patients_to_cohort_missing in Hrun by assumption. discriminate.
Qed.

(** X12.  Reading a cohort back after a returning
    [add_patients_to_cohort]: [get_patient_cohort] by id gives a document
    whose member list is the list the call returned, which holds every id
    that was added and is counted by [number_patients]. *)
Theorem cohort_read_back_after_add (ids r : list ObjectId) (db' : DB) :
  add_patients_to_cohort cid ids db = (db', Ok r) ->
  exists c',
    get_patient_cohort db' None (Some cid) = Ok (CohortDoc (Some c')) /\
    patient_ids c' = r /\
    number_patients c' = Z.of_nat (List.length r) /\
    (forall x, In x ids -> In x r).
Proof.
  intros Hrun. destruct (add_ok_inv ids Hrun) as (c & hw & Hc & -> & ->).
  eexists. split; [|split; [|split]].
  - simpl. erewrite cohort_find_replace with (c := c); eauto.
  - reflexivity.
  - reflexivity.
  - intros x Hx. apply add_to_set_In. now right.
Qed.

End CohortMore.

Lemma add_appends_new_members_witness :
  exists c' suffix,
    cohort_find_one (fst (add_patients_to_cohort 100%N [5%N; 1%N; 5%N]
                            repeated_member_db)) 100%N = Some c' /\
    patient_ids c' = [1%N; 1%N] ++ suffix /\
    NoDup suffix /\
    (forall x, In x suffix <-> In x [5%N; 1%N; 5%N] /\ ~ In x [1%N; 1%N]).
Proof.
  apply (@add_appends_new_members repeated_member_db 100%N [5%N; 1%N; 5%N]
           (mk_cohort 100%N "repeated" [1%N; 1%N] 2
              (mk_bounds (Some (NInt 160)) (Some (NInt 160)))
              (mk_bounds (Some (NInt 44)) (Some (NInt 44))))).
  reflexivity.
Defined.

Lemma missing_cohort_is_a_type_error_witness :
  add_patients_to_cohort 7%N [1%N] sample_db = (sample_db, Raise none_type_error) /\
  set_max_min_patient_dimensions_in_cohort 7%N sample_db
    = (sample_db, Raise none_type_error).
Proof.
  apply (@missing_cohort_is_a_type_error sample_db 7%N [1%N]). reflexivity.
Defined.

Lemma add_unknown_patient_joins_then_raises_witness :
  exists c',
    add_patients_to_cohort 100%N [1%N; 77%N] sample_db
      = (cohort_replace sample_db 100%N c', Raise none_type_error) /\
    cohort_find_one (cohort_replace sample_db 100%N c') 100%N = Some c' /\
    In 77%N (patient_ids c') /\
    number_patients c' = Z.of_nat (List.length (patient_ids c')) /\
    c_height c' = c_height (empty_cohort 100%N) /\
    c_weight c' = c_weight (empty_cohort 100%N).
Proof.
  apply (@add_unknown_patient_joins_then_raises sample_db 100%N [1%N; 77%N]
           (empty_cohort 100%N) 77%N).
  - reflexivity.
  - simpl. auto.
  - reflexivity.
Defined.

Lemma bounds_never_shrink_witness :
  (exists c',
     cohort_find_one (fst (add_patients_to_cohort 100%N [5%N] repeated_member_db))
       100%N = Some c' /\
     (forall v, within (mk_bounds (Some (NInt 160)) (Some (NInt 160))) v ->
                within (c_height c') v) /\
     (forall v, within (mk_bounds (Some (NInt 44)) (Some (NInt 44))) v ->
                within (c_weight c') v)) /\
  (exists c',
     cohort_find_one
       (fst (set_max_min_patient_dimensions_in_cohort 100%N repeated_member_db))
       100%N = Some c' /\
     (forall v, within (mk_bounds (Some (NInt 160)) (Some (NInt 160))) v ->
                within (c_height c') v) /\
     (forall v, within (mk_bounds (Some (NInt 44)) (Some (NInt 44))) v ->
                within (c_weight c') v)).
Proof.
  apply (@bounds_never_shrink repeated_member_db 100%N [5%N]
           (mk_cohort 100%N "repeated" [1%N; 1%N] 2
              (mk_bounds (Some (NInt 160)) (Some (NInt 160)))
              (mk_bounds (Some (NInt 44)) (Some (NInt 44))))).
  - reflexivity.
  - reflexivity.
  - reflexivity.
Defined.

Lemma recompute_twice_is_recompute_once_witness :
  set_max_min_patient_dimensions_in_cohort 100%N
    (fst (set_max_min_patient_dimensions_in_cohort 100%N unscanned_db))
  = (fst (set_max_min_patient_dimensions_in_cohort 100%N unscanned_db),
     snd (set_max_min_patient_dimensions_in_cohort 100%N unscanned_db)).
Proof.
  apply (@recompute_twice_is_recompute_once unscanned_db 100%N
           (mk_cohort 100%N "unscanned" [1%N; 5%N] 2
              (mk_bounds None None) (mk_bounds None None))
           (fst (set_max_min_patient_dimensions_in_cohort 100%N unscanned_db))).
  - reflexivity.
  - exact I.
  - exact I.
  - vm_compute. reflexivity.
Defined.

Lemma cohort_read_back_after_add_witness :
  exists c',
    get_patient_cohort (fst (add_patients_to_cohort 100%N [1%N; 5%N] sample_db))
      None (Some 100%N) = Ok (CohortDoc (Some c')) /\
    patient_ids c' = [1%N; 5%N] /\
    number_patients c' = Z.of_nat (List.length [1%N; 5%N]) /\
    (forall x, In x [1%N; 5%N] -> In x [1%N; 5%N]).
Proof.
  apply (@cohort_read_back_after_add sample_db 100%N [1%N; 5%N] [1%N; 5%N]
           (fst (add_patients_to_cohort 100%N [1%N; 5%N] sample_db))).
  vm_compute. reflexivity.
Defined.

(** X29.  On a cohort whose four stored bounds are absent and whose
    members all have a patient document, the full recompute returns, and
    the height and weight bounds it stores are the minimum and the
    maximum of the members' present values (absent when no member has a
    value). *)
Theorem recompute_on_null_bounds_is_from_scratch
  (db : DB) (cid : ObjectId) (c : cohort_doc) :
  cohort_find_one db cid = Some c ->
  c_height c = mk_bounds None None ->
  c_weight c = mk_bounds None None ->
  (forall id_, In id_ (patient_ids c) -> patient_find_one db id_ <> None) ->
  exists db' c',
    set_max_min_patient_dimensions_in_cohort cid db = (db', Ok (Some c')) /\
    c_height c' = bounds_from_scratch (member_values db p_height c) /\
    c_weight c' = bounds_from_scratch (member_values db p_weight c).
Proof.
  intros Hc Hh Hw Hall.
  erewrite set_max_min_run by eassumption.
  rewrite scan_patients_fold by exact Hall.
  rewrite Hh, Hw, !fold_update_bounds_null.
  eexists _, _. split; [reflexivity|].
  simpl. rewrite !bounds_eta. split; reflexivity.
Qed.

Lemma recompute_on_null_bounds_is_from_scratch_witness :
  exists db' c',
    set_max_min_patient_dimensions_in_cohort 100%N unscanned_db
      = (db', Ok (Some c')) /\
    c_height c' = mk_bounds (Some (NInt 160)) (Some (NInt 187)) /\
    c_weight c' = mk_bounds (Some (NInt 44)) (Some (NInt 88)).
Proof.
  apply (@recompute_on_null_bounds_is_from_scratch unscanned_db 100%N
           (mk_cohort 100%N "unscanned" [1%N; 5%N] 2
              (mk_bounds None None) (mk_bounds None None))).
  - reflexivity.
  - reflexivity.
  - reflexivity.
  - intros i [<-|[<-|[]]]; vm_compute; discriminate.
Defined.

(** ** Demographic update: order of checks and writes, frame *)

Section DemographicsMore.

Variable math_pow : float -> float -> result float.
Variable db : DB.
Variable id : Z.

Lemma num_of_isinstance (v : pyval) (x : num) :
  num_of v = Some x -> isinstance_int_float v = true /\ is_none v = false.
Proof. destruct v; simpl; intros; try discriminate; auto. Qed.

(** X13.  Checks and writes alternate field by field: with a non-zero
    age in range and a gender that is neither 'male' nor 'female', the
    age is written to every document of the human and then the call
    raises the gender error, whatever the other keywords are. *)
Theorem age_is_written_before_gender_is_checked
  (age gender height weight loc : pyval) (a : num) :
  num_of age = Some a -> in_range_0_121 age = true -> truthy age = true ->
  in_strings gender ["male"; "female"] = false -> is_none gender = false ->
  update_human_demographics math_pow id (mk_demographics age gender height weight loc) db =
    (patients_updated db id (set_age (Some a)),
     Raise (ValueError "Gender not male/female.")).
Proof.
  intros Hnum Hrange Htrue Hgender Hsupplied.
  destruct (num_of_isinstance age Hnum) as [Hinst Hnn].
  unfold update_human_demographics.
  cbv [kw_age kw_gender kw_height kw_weight kw_loc].
  rewrite Hinst, Hrange, Htrue, Hgender, Hsupplied, Hnum. simpl.
  reflexivity.
Qed.

Lemma falsy_number_in_range (v : pyval) (x : num) :
  num_of v = Some x -> truthy v = false -> in_range_0_121 v = true.
Proof.
  destruct v as [|z|f|t|]; simpl; try discriminate; intros _ H.
  - apply negb_false_iff, Z.eqb_eq in H. now subst.
  - apply negb_false_iff in H. destruct f; try discriminate. reflexivity.
Qed.

(** X14.  A supplied zero (0 or 0.0) passes every check and is then
    dropped by the truthiness test: an age, height or weight of zero is
    accepted without error and nothing is written. *)
Theorem supplied_zero_is_accepted_and_dropped (v : pyval) (x : num) :
  num_of v = Some x -> truthy v = false ->
  update_human_demographics math_pow id (age_only v) db = (db, Ok tt) /\
  update_human_demographics math_pow id (height_only v) db = (db, Ok tt) /\
  update_human_demographics math_pow id (weight_only v) db = (db, Ok tt).
Proof.
  intros Hnum Hfalse.
  destruct (num_of_isinstance v Hnum) as [Hinst Hnn].
  pose proof (falsy_number_in_range v Hnum Hfalse) as Hrange.
  unfold update_human_demographics, age_only, height_only, weight_only.
  cbv [kw_age kw_gender kw_height kw_weight kw_loc].
  simpl. rewrite Hinst, Hrange, Hfalse. simpl. auto.
Qed.

Lemma update_many_no_match {A} (P : A -> bool) (f : A -> A) (l : list A) :
  find_one P l = None -> update_many P f l = l.
Proof.
  induction l as [|d l IH]; simpl; auto.
  destruct (P d) eqn:E; [discriminate|]. intros H. now rewrite IH.
Qed.

Lemma patients_updated_no_match (f : patient_doc -> patient_doc) :
  find_one (patient_matches (ByInternalId id)) (patient db) = None ->
  patients_updated db id f = db.
Proof.
  intros H. unfold patients_updated. rewrite update_many_no_match by exact H.
  apply db_eta.
Qed.

(** X15.  A human with no patient document: a height or weight update
    raises a TypeError when it reads the companion field, although
    updates of the other fields for the same unknown human return
    silently; the database is unchanged in every case. *)
Theorem unknown_human_height_update_raises (v : pyval) (x : num) :
  find_one (patient_matches (ByInternalId id)) (patient db) = None ->
  num_of v = Some x -> truthy v = true ->
  update_human_demographics math_pow id (height_only v) db = (db, Raise none_type_error) /\
  update_human_demographics math_pow id (weight_only v) db = (db, Raise none_type_error) /\
  update_human_demographics math_pow id
    (mk_demographics PyNone (PyStr "male") PyNone PyNone (PyStr "europe")) db
    = (db, Ok tt).
Proof.
  intros Hnone Hnum Htrue.
  destruct (num_of_isinstance v Hnum) as [Hinst Hnn].
  unfold update_human_demographics, height_only, weight_only.
  cbv [kw_age kw_gender kw_height kw_weight kw_loc].
  simpl. rewrite Hinst, Htrue, Hnum. simpl.
  unfold patient_update_many, stored_field, get_db, ret, raise, bind. simpl.
  rewrite !(@update_many_no_match _ _ _ _ Hnone).
  rewrite Hnone, db_eta. auto.
Qed.

End DemographicsMore.

Lemma age_is_written_before_gender_is_checked_witness :
  update_human_demographics square_pow 843
    (mk_demographics (PyInt 63) (PyStr "Male") (PyFloat (float_of_ratio 200 1)) PyNone PyNone)
    sample_db =
    (patients_updated sample_db 843 (set_age (Some (NInt 63))),
     Raise (ValueError "Gender not male/female.")).
Proof.
  apply (@age_is_written_before_gender_is_checked square_pow sample_db 843
           (PyInt 63) (PyStr "Male") (PyFloat (float_of_ratio 200 1)) PyNone PyNone
           (NInt 63));
    reflexivity.
Defined.

Lemma supplied_zero_is_accepted_and_dropped_witness :
  update_human_demographics square_pow 850 (age_only (PyFloat (S754_zero false)))
    sample_db = (sample_db, Ok tt) /\
  update_human_demographics square_pow 850 (height_only (PyFloat (S754_zero false)))
    sample_db = (sample_db, Ok tt) /\
  update_human_demographics square_pow 850 (weight_only (PyFloat (S754_zero false)))
    sample_db = (sample_db, Ok tt).
Proof.
  apply (@supplied_zero_is_accepted_and_dropped square_pow sample_db 850
           (PyFloat (S754_zero false)) (NFloat (S754_zero false)));
    reflexivity.
Defined.

Lemma unknown_human_height_update_raises_witness :
  update_human_demographics square_pow 999 (height_only (PyInt 170)) sample_db
    = (sample_db, Raise none_type_error) /\
  update_human_demographics square_pow 999 (weight_only (PyInt 170)) sample_db
    = (sample_db, Raise none_type_error) /\
  update_human_demographics square_pow 999
    (mk_demographics PyNone (PyStr "male") PyNone PyNone (PyStr "europe")) sample_db
    = (sample_db, Ok tt).
Proof.
  apply (@unknown_human_height_update_raises square_pow sample_db 999 (PyInt 170) (NInt 170));
    reflexivity.
Defined.

Section Frame.

Variable math_pow : float -> float -> result float.
Variable id : Z.

Lemma touched_refl (db : DB) : only_human_touched id db db.
Proof.
  repeat split; auto.
  induction (patient db) as [|p l IH]; constructor; auto.
Qed.

Lemma touched_trans (a b c : DB) :
  only_human_touched id a b -> only_human_touched id b c ->
  only_human_touched id a c.
Proof.
  intros (Hm1 & Hc1 & Hn1 & Hp1) (Hm2 & Hc2 & Hn2 & Hp2).
  repeat split; try congruence.
  revert Hp1 Hp2. generalize (patient a) (patient b) (patient c).
  intros la lb lc H1. revert lc.
  induction H1 as [|x y la lb Hxy Hrest IH]; intros lc H2;
    inversion H2 as [|y' z lb' lc' Hyz Hrest2]; subst; constructor.
  - destruct Hxy as (Hid1 & Hinfo1 & Hsame1), Hyz as (Hid2 & Hinfo2 & Hsame2).
    repeat split; try congruence.
    intros Hno.
    assert (Hno' : patient_matches (ByInternalId id) y = false)
      by (unfold patient_matches in *; now rewrite Hinfo1).
    rewrite (Hsame2 Hno'). exact (Hsame1 Hno).
  - now apply IH.
Qed.

Lemma writes_ret {A} (a : A) : writes_only_human id (ret a).
Proof. intros db. apply touched_refl. Qed.

Lemma writes_raise {A} (e : exn) : writes_only_human id (@raise A e).
Proof. intros db. apply touched_refl. Qed.

Lemma writes_lift {A} (r : result A) : writes_only_human id (lift r).
Proof. intros db. apply touched_refl. Qed.

Lemma writes_bind {A B} (m : M A) (k : A -> M B) :
  writes_only_human id m -> (forall a, writes_only_human id (k a)) ->
  writes_only_human id (bind m k).
Proof.
  intros Hm Hk db. unfold bind. specialize (Hm db).
  destruct (m db) as [db1 [a|e]]; simpl in *; auto.
  eapply touched_trans; [exact Hm|apply Hk].
Qed.

Lemma writes_when (b : bool) (m : M unit) :
  writes_only_human id m -> writes_only_human id (when b m).
Proof. destruct b; simpl; auto using writes_ret. Qed.

Lemma writes_update_many (f : patient_doc -> patient_doc) :
  (forall p, p_id (f p) = p_id p) ->
  (forall p, p_internal_info (f p) = p_internal_info p) ->
  writes_only_human id (patient_update_many (ByInternalId id) f).
Proof.
  intros Hid Hinfo db. unfold patient_update_many. simpl.
  repeat split; auto.
  unfold update_many.
  induction (patient db) as [|p l IH]; simpl; constructor; auto.
  destruct (patient_matches (ByInternalId id) p) eqn:E; repeat split; auto.
  discriminate.
Qed.

Lemma writes_stored_field {A} (field : patient_doc -> option A) :
  writes_only_human id (stored_field id field).
Proof.
  intros db. unfold stored_field, bind, get_db.
  destruct (find_one (patient_matches (ByInternalId id)) (patient db));
    apply touched_refl.
Qed.

Lemma writes_recompute (weight height : option num) :
  writes_only_human id (recompute_bmi_bsa math_pow id weight height).
Proof.
  unfold recompute_bmi_bsa.
  repeat (apply writes_bind; [|intros ?]);
    auto using writes_lift, writes_update_many.
Qed.

Lemma writes_for_each {A} (l : list A) (body : A -> M unit) :
  (forall x, writes_only_human id (body x)) ->
  writes_only_human id (for_each l body).
Proof.
  intros Hbody. induction l as [|x l IH]; simpl; auto using writes_ret.
  apply writes_bind; auto.
Qed.

(** X16.  [update_human_demographics] touches nothing but the patient
    documents of the human it is called for: whatever the keywords and
    whether it returns or raises, the model and cohort collections are
    unchanged (so a cohort's stored bounds do not follow a height or
    weight update), and every patient document keeps its place, its
    [_id] and its identity, the documents of other humans being left
    exactly as they were. *)
Theorem demographics_update_touches_one_human (kw : demographics) :
  writes_only_human id (update_human_demographics math_pow id kw).
Proof.
  unfold update_human_demographics.
  repeat first
    [ apply writes_ret
    | apply writes_raise
    | apply writes_stored_field
    | apply writes_recompute
    | apply writes_update_many; intros; reflexivity
    | apply writes_when
    | apply writes_for_each; intros ?
    | apply writes_bind; [|intros ?]
    | match goal with
      | |- writes_only_human _ (match ?x with _ => _ end) => destruct x
      end ].
Qed.

End Frame.

(** ** Derived metrics *)

Section Metrics.

Variable math_pow : float -> float -> result float.

Lemma to_float_raises (a : num) (e : exn) :
  to_float a = Raise e -> is_OverflowError e = true.
Proof.
  destruct a as [z|f]; simpl; [|discriminate].
  unfold float_of_int.
  destruct (binary_normalize prec emax z 0 false); try discriminate.
  now intros [= <-].
Qed.

Lemma int_true_div_raises (a b : Z) (e : exn) :
  b <> 0 -> int_true_div a b = Raise e -> is_OverflowError e = true.
Proof.
  intros Hb. unfold int_true_div.
  destruct a, b; try congruence; try discriminate;
    match goal with
    | |- context [SFdiv ?p ?q ?x ?y] => destruct (SFdiv p q x y)
    end; try discriminate; now intros [= <-].
Qed.

Lemma num_div_raises (a b : num) (e : exn) :
  num_div a b = Raise e ->
  is_ZeroDivisionError e || is_OverflowError e = true.
Proof.
  destruct a as [x|f], b as [y|g]; simpl.
  - destruct (Z.eq_dec y 0) as [->|Hy].
    + destruct x; intros [= <-]; reflexivity.
    + intros H. rewrite (int_true_div_raises _ Hy H). apply orb_true_r.
  - destruct (float_of_int x) as [fa|e'] eqn:E; simpl.
    + destruct (float_is_zero g); [|discriminate]. now intros [= <-].
    + intros [= <-]. rewrite (to_float_raises (NInt x) E). apply orb_true_r.
  - destruct (float_of_int y) as [fb|e'] eqn:E; simpl.
    + destruct (float_is_zero fb); [|discriminate]. now intros [= <-].
    + intros [= <-]. rewrite (to_float_raises (NInt y) E). apply orb_true_r.
  - destruct (float_is_zero g); [|discriminate]. now intros [= <-].
Qed.

Lemma num_mul_raises (a b : num) (e : exn) :
  num_mul a b = Raise e -> is_OverflowError e = true.
Proof.
  destruct a as [x|f], b as [y|g]; simpl; try discriminate.
  - destruct (float_of_int x) eqn:E; simpl; [discriminate|].
    intros [= <-]. exact (to_float_raises (NInt x) E).
  - destruct (float_of_int y) eqn:E; simpl; [discriminate|].
    intros [= <-]. exact (to_float_raises (NInt y) E).
Qed.

Lemma math_sqrt_raises (x : float) (e : exn) :
  math_sqrt x = Raise e -> is_ValueError e = true.
Proof.
  unfold math_sqrt.
  destruct (float_is_nan (SFsqrt prec emax x) && negb (float_is_nan x));
    [|discriminate].
  now intros [= <-].
Qed.

Lemma not_nan_result (f : float) (r : option num) :
  (if float_is_nan f then Ok None else Ok (Some (NFloat f))) = Ok r ->
  not_nan r.
Proof.
  destruct (float_is_nan f) eqn:E; intros [= <-]; simpl; auto.
  unfold num_is_nan. simpl. now destruct f.
Qed.

(** X17.  Failure modes of the two formulas.  With a [None] argument both
    return [None].  Neither ever returns NaN: a result is [None] or a
    float that is not NaN.  [calculate_mosteller_bsa] raises nothing but
    a ValueError (the square root of a negative quotient) or an
    OverflowError (an int beyond the float range); [calculate_bmi] raises
    nothing but what [math.pow] raised, a ZeroDivisionError or an
    OverflowError. *)
Theorem derived_metrics_failure_modes (weight height : option num) :
  (weight = None \/ height = None ->
   calculate_bmi math_pow weight height = Ok None /\
   calculate_mosteller_bsa weight height = Ok None) /\
  (forall r, calculate_bmi math_pow weight height = Ok r -> not_nan r) /\
  (forall r, calculate_mosteller_bsa weight height = Ok r -> not_nan r) /\
  (forall e, calculate_bmi math_pow weight height = Raise e ->
     (exists x, math_pow x float_two = Raise e) \/
     is_ZeroDivisionError e || is_OverflowError e = true) /\
  (forall e, calculate_mosteller_bsa weight height = Raise e ->
     is_ValueError e || is_OverflowError e = true).
Proof.
  split; [|split; [|split; [|split]]].
  - intros [-> | ->]; [|destruct weight]; split; reflexivity.
  - destruct weight as [w|], height as [h|]; simpl;
      try (intros r [= <-]; exact I).
    intros r.
    destruct (num_div h (NInt 100)) as [x|e]; simpl; [|discriminate].
    destruct (math_pow x float_two) as [d|e]; simpl; [|discriminate].
    destruct (num_div w (NFloat d)) as [q|e]; simpl; [|discriminate].
    apply not_nan_result.
  - destruct weight as [w|], height as [h|]; simpl;
      try (intros r [= <-]; exact I).
    intros r.
    destruct (num_mul w h) as [p|e]; simpl; [|discriminate].
    destruct (num_div p (NInt 3600)) as [x|e]; simpl; [|discriminate].
    destruct (math_sqrt x) as [q|e]; simpl; [|discriminate].
    apply not_nan_result.
  - destruct weight as [w|], height as [h|]; simpl; try discriminate.
    intros e.
    destruct (num_div h (NInt 100)) as [x|e1] eqn:E1; simpl.
    + destruct (math_pow x float_two) as [d|e2] eqn:E2; simpl.
      * destruct (num_div w (NFloat d)) as [q|e3] eqn:E3; simpl.
        -- destruct (float_is_nan (round2 q)); discriminate.
        -- intros [= <-]. right. exact (num_div_raises _ _ E3).
      * intros [= <-]. left. now exists x.
    + intros [= <-]. right. exact (num_div_raises _ _ E1).
  - destruct weight as [w|], height as [h|]; simpl; try discriminate.
    intros e.
    destruct (num_mul w h) as [p|e1] eqn:E1; simpl.
    + destruct (num_div p (NInt 3600)) as [x|e2] eqn:E2; simpl.
      * destruct (math_sqrt x) as [q|e3] eqn:E3; simpl.
        -- destruct (float_is_nan (round2 q)); discriminate.
        -- intros [= <-]. now rewrite (math_sqrt_raises _ E3).
      * intros [= <-].
        destruct p as [z|f]; simpl in E2.
        -- rewrite (@int_true_div_raises z 3600 e2) by (assumption || discriminate).
           apply orb_true_r.
        -- destruct (float_of_int 3600) as [fb|e'] eqn:E; [|discriminate].
           simpl in E2. destruct (float_is_zero fb) eqn:Z; [|discriminate].
           revert Z. injection E as <-. discriminate.
    + intros [= <-]. rewrite (num_mul_raises _ _ E1). apply orb_true_r.
Qed.

Lemma SFmul_comm (x y : float) : SFmul prec emax x y = SFmul prec emax y x.
Proof.
  destruct x as [sx|sx| |sx mx ex], y as [sy|sy| |sy my ey]; simpl;
    rewrite ?(xorb_comm sx sy); auto.
  now rewrite (Pos.mul_comm mx my), (Z.add_comm ex ey).
Qed.

Lemma num_mul_comm (a b : num) : num_mul a b = num_mul b a.
Proof.
  destruct a as [x|f], b as [y|g]; simpl.
  - now rewrite Z.mul_comm.
  - destruct (float_of_int x); simpl; auto. now rewrite SFmul_comm.
  - destruct (float_of_int y); simpl; auto. now rewrite SFmul_comm.
  - now rewrite SFmul_comm.
Qed.

(** X18.  The Mosteller formula is symmetric: swapping the weight and the
    height argument gives the same outcome, value or exception. *)
Theorem mosteller_bsa_is_symmetric (weight height : option num) :
  calculate_mosteller_bsa weight height = calculate_mosteller_bsa height weight.
Proof.
  destruct weight as [w|], height as [h|]; simpl; auto.
  now rewrite (num_mul_comm w h).
Qed.

End Metrics.

(** ** Batch ingestion: what is written, and where it ends up *)

Section UploadMore.

Lemma extends_refl (db : DB) : extends db db.
Proof. repeat split; exists []; now rewrite app_nil_r. Qed.

Lemma extends_trans (a b c : DB) : extends a b -> extends b c -> extends a c.
Proof.
  intros (Hc1 & [ps1 Hp1] & [ms1 Hm1]) (Hc2 & [ps2 Hp2] & [ms2 Hm2]).
  split; [congruence|]. split.
  - exists (ps1 ++ ps2). now rewrite Hp2, Hp1, app_assoc.
  - exists (ms1 ++ ms2). now rewrite Hm2, Hm1, app_assoc.
Qed.

Lemma find_one_app_found {A} (P : A -> bool) (l l' : list A) (x : A) :
  find_one P l = Some x -> find_one P (l ++ l') = Some x.
Proof.
  induction l as [|d l IH]; simpl; [discriminate|].
  destruct (P d); auto.
Qed.

Lemma find_one_app_fresh {A} (P : A -> bool) (l l' : list A) :
  Forall (fun x => P x = false) l -> find_one P (l ++ l') = find_one P l'.
Proof.
  induction 1 as [|d l Hd Hl IH]; simpl; auto. now rewrite Hd.
Qed.

Lemma uploaded_well_extends (now : Z) (db db' : DB) (pid : ObjectId) :
  uploaded_well now db pid -> extends db db' -> uploaded_well now db' pid.
Proof.
  intros (p & mid & m & Hp & Hpt & Hpm & Hm & Hmt) (_ & [ps Hps] & [ms Hms]).
  exists p, mid, m. repeat split; auto.
  - unfold patient_find_one. rewrite Hps. now apply find_one_app_found.
  - unfold models_find_one. rewrite Hms. now apply find_one_app_found.
Qed.

Variable jsondir : jsondir_t.
Variable flat : bool.
Variable now : Z.

Lemma upload_patient_extends (entry : Z * series_t) (db : DB) :
  extends db (fst (upload_patient jsondir flat now entry db)).
Proof.
  destruct entry as [human s].
  unfold upload_patient, get_patient_collection_m, bind, get_db, lift,
    insert_model, insert_patient, raise.
  cbv beta iota.
  destruct (get_patient_collection db human s) as [[|p found]|e]; simpl;
    try apply extends_refl.
  destruct (patient_files jsondir flat human s) as [[pf [mf|]]|e]; simpl;
    try apply extends_refl.
  destruct pf as [pf|]; simpl.
  - repeat split; simpl; eauto.
  - repeat split; simpl; eauto. exists []. now rewrite app_nil_r.
Qed.

Lemma upload_all_extends (l : list (Z * series_t)) :
  forall db, extends db (fst (upload_all jsondir flat now l db)).
Proof.
  induction l as [|entry l IH]; intros db; simpl; [apply extends_refl|].
  unfold bind.
  pose proof (upload_patient_extends entry db) as H1.
  destruct (upload_patient jsondir flat now entry db) as [db1 [pid|e]]; simpl in *; auto.
  pose proof (IH db1) as H2.
  destruct (upload_all jsondir flat now l db1) as [db2 [ids|e]]; simpl in *;
    eapply extends_trans; eauto.
Qed.

(** One returning insertion: the new patient id lies between the old and
    the new [next_oid], resolves as [uploaded_well] says, and the
    identifiers stay below [next_oid]. *)
Lemma upload_patient_ok (entry : Z * series_t) (db db1 : DB) (pid : ObjectId) :
  oids_below db ->
  upload_patient jsondir flat now entry db = (db1, Ok pid) ->
  oids_below db1 /\ uploaded_well now db1 pid /\
  (next_oid db <= pid)%N /\ (pid < next_oid db1)%N.
Proof.
  intros [Hps Hms]. destruct entry as [human s].
  unfold upload_patient, get_patient_collection_m, bind, get_db, lift,
    insert_model, insert_patient, raise.
  cbv beta iota.
  destruct (get_patient_collection db human s) as [[|p found]|e]; simpl;
    try discriminate.
  destruct (patient_files jsondir flat human s) as [[pf [mf|]]|e]; simpl;
    try discriminate.
  destruct pf as [pf|]; simpl; [|discriminate].
  intros [= <- <-]. simpl. repeat split.
  - apply Forall_app. split.
    + eapply Forall_impl; [|exact Hps]. simpl. intros; lia.
    + repeat constructor. simpl. lia.
  - simpl. apply Forall_app. split.
    + eapply Forall_impl; [|exact Hms]. simpl. intros; lia.
    + repeat constructor. simpl. lia.
  - eexists _, (next_oid db), _. unfold patient_find_one, models_find_one. simpl.
    repeat split.
    + rewrite find_one_app_fresh.
      * simpl. unfold patient_has_id. simpl. rewrite N.eqb_refl. reflexivity.
      * eapply Forall_impl; [|exact Hps]. simpl. intros a Ha.
        unfold patient_has_id. apply N.eqb_neq. lia.
    + reflexivity.
    + reflexivity.
    + rewrite find_one_app_fresh.
      * simpl. rewrite N.eqb_refl. reflexivity.
      * eapply Forall_impl; [|exact Hms]. simpl. intros a Ha.
        apply N.eqb_neq. lia.
    + reflexivity.
  - lia.
  - lia.
Qed.

Lemma upload_all_ok (l : list (Z * series_t)) :
  forall (db db' : DB) (ids : list ObjectId),
    oids_below db ->
    upload_all jsondir flat now l db = (db', Ok ids) ->
    oids_below db' /\
    List.length ids = List.length l /\
    Forall (uploaded_well now db') ids /\
    Forall (fun i => (next_oid db <= i)%N /\ (i < next_oid db')%N) ids /\
    NoDup ids /\
    (next_oid db <= next_oid db')%N.
Proof.
  induction l as [|entry l IH]; intros db db' ids Hbelow; simpl.
  - intros [= <- <-].
    split; [exact Hbelow|]. split; [reflexivity|]. split; [constructor|].
    split; [constructor|]. split; [constructor|lia].
  - unfold bind.
    destruct (upload_patient jsondir flat now entry db) as [db1 [pid|e]] eqn:H1;
      [|discriminate].
    destruct (upload_all jsondir flat now l db1) as [db2 [rest|e]] eqn:H2;
      [|discriminate].
    intros [= <- <-].
    destruct (upload_patient_ok entry Hbelow H1) as (Hb1 & Hwell & Hlo & Hhi).
    destruct (IH _ _ _ Hb1 H2) as (Hb2 & Hlen & Hall & Hrange & Hnd & Hmono).
    split; [exact Hb2|]. split; [simpl; now rewrite Hlen|].
    split; [|split; [|split]].
    + constructor; auto.
      apply uploaded_well_extends with (db := db1); auto.
      pose proof (upload_all_extends l db1) as He. now rewrite H2 in He.
    + constructor; [lia|].
      eapply Forall_impl; [|exact Hrange]. simpl. intros; lia.
    + constructor; auto. intros Hin.
      rewrite Forall_forall in Hrange. apply Hrange in Hin. lia.
    + lia.
Qed.

End UploadMore.

Lemma upload_loop_extends (jsondir : jsondir_t) (flat : bool) (now : Z)
  (l : list (Z * series_t)) (db : DB) :
  extends db (fst ((for_each l (validate_patient jsondir flat) ;;;
                    upload_all jsondir flat now l) db)).
Proof.
  unfold bind.
  pose proof (validation_reads_only jsondir flat l db) as Hv.
  destruct (for_each l (validate_patient jsondir flat) db) as [d [[]|e]];
    simpl in Hv; subst d; [apply upload_all_extends|apply extends_refl].
Qed.

Lemma upload_patients_keeps_cohorts
  (jsondir : jsondir_t) (now : Z)
  (patients_list : option (list (Z * series_t))) (internal_id_list : option (list Z))
  (db : DB) :
  patient_cohort (fst (upload_patients jsondir now patients_list internal_id_list db))
  = patient_cohort db.
Proof.
  unfold upload_patients.
  destruct patients_list as [pl|], internal_id_list as [[|i ids]|]; auto.
  - apply (upload_loop_extends jsondir false now pl db).
  - cbn [nonempty]. unfold bind at 1, bind at 1, lift.
    destruct (patients_of_internal_ids jsondir (i :: ids)) as [l|e]; auto.
    apply (upload_loop_extends jsondir true now l db).
Qed.

(** X19.  [upload_patients] only appends: whatever the arguments and
    whether it returns or raises, the documents that were stored keep
    their place and content, new patient and model documents come after
    them, and the cohort collection is untouched. *)
Theorem upload_only_appends
  (jsondir : jsondir_t) (now : Z)
  (patients_list : option (list (Z * series_t))) (internal_id_list : option (list Z))
  (db : DB) :
  extends db (fst (upload_patients jsondir now patients_list internal_id_list db)).
Proof.
  unfold upload_patients.
  destruct patients_list as [pl|], internal_id_list as [[|i ids]|];
    try apply extends_refl.
  - apply (upload_loop_extends jsondir false now pl db).
  - cbn [nonempty]. unfold bind at 1, bind at 1, lift.
    destruct (patients_of_internal_ids jsondir (i :: ids)) as [l|e];
      [apply (upload_loop_extends jsondir true now l db)|apply extends_refl].
Qed.

(** X20.  What a returning [upload_patients] leaves, in a database whose
    stored ids were all handed out before [next_oid]: one new id per
    requested entry, all distinct, each resolving to a patient document
    stamped with the call's time whose ["models"] reference resolves to a
    model document with the same stamp. *)
Theorem upload_links_patient_to_model
  (jsondir : jsondir_t) (now : Z)
  (patients_list : option (list (Z * series_t))) (internal_id_list : option (list Z))
  (db db' : DB) (ids : list ObjectId) :
  oids_below db ->
  upload_patients jsondir now patients_list internal_id_list db = (db', Ok ids) ->
  List.length ids
    = List.length (requested_patients jsondir patients_list internal_id_list) /\
  NoDup ids /\
  Forall (uploaded_well now db') ids.
Proof.
  intros Hbelow. unfold upload_patients, requested_patients.
  assert (Hloop : forall flat l,
            (for_each l (validate_patient jsondir flat) ;;;
             upload_all jsondir flat now l) db = (db', Ok ids) ->
            List.length ids = List.length l /\ NoDup ids /\
            Forall (uploaded_well now db') ids).
  { intros flat l. unfold bind.
    pose proof (validation_reads_only jsondir flat l db) as Hv.
    destruct (for_each l (validate_patient jsondir flat) db) as [d [[]|e]];
      simpl in Hv; subst d; [|discriminate].
    intros Hrun.
    destruct (upload_all_ok jsondir flat now l Hbelow Hrun)
      as (_ & Hlen & Hall & _ & Hnd & _). auto. }
  destruct patients_list as [pl|], internal_id_list as [[|i l']|];
    try discriminate.
  - apply (Hloop false pl).
  - cbn [nonempty]. unfold bind at 1, bind at 1, lift.
    destruct (patients_of_internal_ids jsondir (i :: l')) as [l|e];
      [apply (Hloop true l)|discriminate].
Qed.

Lemma upload_links_patient_to_model_witness :
  List.length [7%N]
    = List.length (requested_patients upload_data (Some [(722, SStr "SER00004")]) None) /\
  NoDup [7%N] /\
  Forall (uploaded_well 0
            (fst (upload_patients upload_data 0 (Some [(722, SStr "SER00004")]) None
                    sample_db)))
         [7%N].
Proof.
  apply (@upload_links_patient_to_model upload_data 0
           (Some [(722, SStr "SER00004")]) None sample_db
           (fst (upload_patients upload_data 0 (Some [(722, SStr "SER00004")]) None
                   sample_db))
           [7%N]).
  - split; repeat constructor.
  - vm_compute. reflexivity.
Defined.

Section UploadToCohort.

Variable jsondir : jsondir_t.
Variable now : Z.
Variable cid : ObjectId.

(** X21.  The cohort is looked at only after the upload: when the cohort
    id has no document and the upload itself returns, the new patient and
    model documents are in the database and the call ends in a TypeError,
    with no cohort holding the new patients. *)
Theorem upload_to_missing_cohort_keeps_the_upload
  (patients_list : option (list (Z * series_t))) (internal_id_list : option (list Z))
  (db db1 : DB) (ids : list ObjectId) :
  cohort_find_one db cid = None ->
  upload_patients jsondir now patients_list internal_id_list db = (db1, Ok ids) ->
  upload_patients_add_to_cohort jsondir now cid patients_list internal_id_list db
    = (db1, Raise none_type_error).
Proof.
  intros Hnone Hup.
  assert (Hnone1 : cohort_find_one db1 cid = None).
  { pose proof (upload_patients_keeps_cohorts jsondir now patients_list
                  internal_id_list db) as Hc.
    rewrite Hup in Hc. simpl in Hc.
    unfold cohort_find_one. now rewrite Hc. }
  unfold upload_patients_add_to_cohort.
  destruct patients_list as [pl|], internal_id_list as [[|i l]|];
    try discriminate; cbn [nonempty]; unfold bind at 1; rewrite Hup;
    unfold bind at 1;
    now rewrite (add_patients_to_cohort_missing cid db1 ids Hnone1).
Qed.

(** X22.  A returning [upload_patients_add_to_cohort]: the upload it ran
    returned some ids, the document it returns is the stored cohort, every
    uploaded id is a member of it and [number_patients] counts the
    members; the patient and model collections are as the upload left
    them. *)
Theorem upload_to_cohort_joins_every_upload
  (patients_list : option (list (Z * series_t))) (internal_id_list : option (list Z))
  (db db' : DB) (r : option cohort_doc) :
  upload_patients_add_to_cohort jsondir now cid patients_list internal_id_list db
    = (db', Ok r) ->
  exists db1 ids c',
    upload_patients jsondir now patients_list internal_id_list db = (db1, Ok ids) /\
    r = Some c' /\
    cohort_find_one db' cid = Some c' /\
    (forall x, In x ids -> In x (patient_ids c')) /\
    number_patients c' = Z.of_nat (List.length (patient_ids c')) /\
    patient db' = patient db1 /\ models db' = models db1.
Proof.
  unfold upload_patients_add_to_cohort.
  assert (Hrest : forall db1 ids,
    (add_patients_to_cohort cid ids ;;;
     d <- get_db ;; ret (cohort_find_one d cid)) db1 = (db', Ok r) ->
    exists c', r = Some c' /\ cohort_find_one db' cid = Some c' /\
      (forall x, In x ids -> In x (patient_ids c')) /\
      number_patients c' = Z.of_nat (List.length (patient_ids c')) /\
      patient db' = patient db1 /\ models db' = models db1).
  { intros db1 ids. unfold bind at 1.
    destruct (add_patients_to_cohort cid ids db1) as [d2 [r2|e]] eqn:Hadd;
      [|discriminate].
    unfold bind, get_db, ret. intros [= <- <-].
    destruct (add_ok_inv db1 cid ids Hadd) as (c & hw & Hc & -> & _).
    eexists. split; [|split; [|split; [|split; [|split]]]].
    - rewrite cohort_find_replace with (c := c); auto.
    - apply cohort_find_replace with (c := c); auto.
    - intros x Hx. simpl. apply add_to_set_In. now right.
    - reflexivity.
    - reflexivity.
    - reflexivity. }
  destruct patients_list as [pl|], internal_id_list as [[|i l]|];
    try discriminate; cbn [nonempty]; unfold bind at 1.
  - destruct (upload_patients jsondir now (Some pl) None db) as [db1 [ids|e]];
      [|discriminate].
    intros H. destruct (Hrest _ _ H) as (c' & P). exists db1, ids, c'. tauto.
  - destruct (upload_patients jsondir now None (Some (i :: l)) db) as [db1 [ids|e]];
      [|discriminate].
    intros H. destruct (Hrest _ _ H) as (c' & P). exists db1, ids, c'. tauto.
Qed.

End UploadToCohort.

Lemma upload_to_missing_cohort_keeps_the_upload_witness :
  upload_patients_add_to_cohort upload_data 0 7%N
    (Some [(722, SStr "SER00004")]) None sample_db
  = (fst (upload_patients upload_data 0 (Some [(722, SStr "SER00004")]) None sample_db),
     Raise none_type_error).
Proof.
  apply (@upload_to_missing_cohort_keeps_the_upload upload_data 0 7%N
           (Some [(722, SStr "SER00004")]) None sample_db
           (fst (upload_patients upload_data 0 (Some [(722, SStr "SER00004")]) None
                   sample_db))
           [7%N]).
  - reflexivity.
  - vm_compute. reflexivity.
Defined.

Lemma upload_to_cohort_joins_every_upload_witness :
  exists db1 ids c',
    upload_patients upload_data 0 None (Some [726]) sample_db = (db1, Ok ids) /\
    snd (upload_patients_add_to_cohort upload_data 0 100%N None (Some [726]) sample_db)
      = Ok (Some c') /\
    cohort_find_one
      (fst (upload_patients_add_to_cohort upload_data 0 100%N None (Some [726])
              sample_db)) 100%N = Some c' /\
    (forall x, In x ids -> In x (patient_ids c')) /\
    number_patients c' = Z.of_nat (List.length (patient_ids c')) /\
    patient (fst (upload_patients_add_to_cohort upload_data 0 100%N None (Some [726])
                    sample_db)) = patient db1 /\
    models (fst (upload_patients_add_to_cohort upload_data 0 100%N None (Some [726])
                   sample_db)) = models db1.
Proof.
  destruct (@upload_to_cohort_joins_every_upload upload_data 0 100%N
              None (Some [726]) sample_db
              (fst (upload_patients_add_to_cohort upload_data 0 100%N None (Some [726])
                      sample_db))
              (Some (mk_cohort 100%N "Pulsify ED Patients" [7%N] 1
                       (mk_bounds None None) (mk_bounds None None))))
    as (db1 & ids & c' & H1 & H2 & H3).
  - vm_compute. reflexivity.
  - exists db1, ids, c'. split; [exact H1|]. split; [|exact H3].
    rewrite <- H2. vm_compute. reflexivity.
Defined.

(** ** The listing of all patients *)

Section Listing.

Lemma dict_get_set (k k' : Z) (v : series_t) (d : list (Z * series_t)) :
  dict_get k (dict_set k' v d) = if k' =? k then Some v else dict_get k d.
Proof.
  induction d as [|[k0 v0] d IH]; simpl.
  - reflexivity.
  - destruct (k0 =? k') eqn:E0; simpl.
    + apply Z.eqb_eq in E0. subst k0. destruct (k' =? k); reflexivity.
    + destruct (k0 =? k) eqn:E1; auto.
      apply Z.eqb_eq in E1. subst k0.
      destruct (k' =? k) eqn:E2; auto.
      apply Z.eqb_eq in E2. subst k'. now rewrite Z.eqb_refl in E0.
Qed.

Lemma dict_set_keys (k' : Z) (v : series_t) (d : list (Z * series_t)) :
  NoDup (map fst d) ->
  NoDup (map fst (dict_set k' v d)) /\
  (forall k, In k (map fst (dict_set k' v d)) <-> k = k' \/ In k (map fst d)).
Proof.
  induction d as [|[k0 v0] d IH]; simpl; intros Hnd.
  - split; [repeat constructor; auto|]. intros k. intuition.
  - inversion Hnd as [|x l Hnot Hrest]; subst.
    destruct (k0 =? k') eqn:E0; simpl.
    + apply Z.eqb_eq in E0. subst k0. split; [now constructor|].
      intros k. intuition.
    + destruct (IH Hrest) as [Hnd' Hin]. apply Z.eqb_neq in E0. split.
      * constructor; auto. rewrite Hin. intros [H|H]; [congruence|auto].
      * intros k. rewrite Hin. intuition.
Qed.

Lemma collect_keys_NoDup (docs : list patient_doc) :
  forall d, NoDup (map fst d) ->
    NoDup (map fst
             (fold_left
                (fun patients i =>
                   match p_internal_info i with
                   | Some info => dict_set (internal_id info) (series info) patients
                   | None => patients
                   end) docs d)).
Proof.
  induction docs as [|p docs IH]; intros d Hd; simpl; auto.
  apply IH. destruct (p_internal_info p) as [info|]; auto.
  now apply dict_set_keys.
Qed.

Lemma insert_item_keys (kv : Z * series_t) (l : list (Z * series_t)) (k : Z) :
  In k (map fst (insert_item kv l)) <-> k = fst kv \/ In k (map fst l).
Proof.
  induction l as [|kv' l IH]; simpl; [intuition|].
  destruct (fst kv <=? fst kv'); simpl; [intuition|].
  rewrite IH. intuition.
Qed.

Lemma insert_item_sorted (kv : Z * series_t) (l : list (Z * series_t)) :
  StronglySorted Z.lt (map fst l) -> ~ In (fst kv) (map fst l) ->
  StronglySorted Z.lt (map fst (insert_item kv l)).
Proof.
  induction l as [|kv' l IH]; simpl; intros Hs Hnot.
  - repeat constructor.
  - inversion Hs as [|x xs Hrest Hall]; subst.
    destruct (fst kv <=? fst kv') eqn:E; simpl.
    + apply Z.leb_le in E.
      assert (Hne : fst kv <> fst kv')
        by (intros Heq; apply Hnot; left; now symmetry).
      assert (Hlt : fst kv < fst kv') by lia.
      constructor; auto. constructor; auto.
      eapply Forall_impl; [|exact Hall]. simpl. intros; lia.
    + apply Z.leb_gt in E. constructor.
      * apply IH; auto.
      * apply Forall_forall. intros k Hk. apply insert_item_keys in Hk.
        destruct Hk as [->|Hk]; auto.
        rewrite Forall_forall in Hall. auto.
Qed.

Lemma insert_item_get (kv : Z * series_t) (l : list (Z * series_t)) (k : Z) :
  ~ In (fst kv) (map fst l) ->
  dict_get k (insert_item kv l) =
    if fst kv =? k then Some (snd kv) else dict_get k l.
Proof.
  destruct kv as [k0 v0]. simpl.
  induction l as [|[k1 v1] l IH]; simpl; intros Hnot; auto.
  destruct (k0 <=? k1); simpl; auto.
  rewrite IH by tauto.
  destruct (k1 =? k) eqn:E1; auto.
  destruct (k0 =? k) eqn:E0; auto.
  apply Z.eqb_eq in E1, E0. subst. tauto.
Qed.

Lemma sorted_items_facts (d : list (Z * series_t)) :
  NoDup (map fst d) ->
  StronglySorted Z.lt (map fst (sorted_items d)) /\
  (forall k, In k (map fst (sorted_items d)) <-> In k (map fst d)) /\
  (forall k, dict_get k (sorted_items d) = dict_get k d).
Proof.
  induction d as [|[k0 v0] d IH]; simpl; intros Hnd.
  - repeat split; auto; constructor.
  - inversion Hnd as [|x l Hnot Hrest]; subst.
    destruct (IH Hrest) as (Hs & Hin & Hget).
    assert (Hnot' : ~ In (fst (k0, v0)) (map fst (sorted_items d)))
      by (simpl; now rewrite Hin).
    split; [|split].
    + now apply insert_item_sorted.
    + intros k. rewrite insert_item_keys, Hin. simpl. intuition.
    + intros k. rewrite insert_item_get by exact Hnot'. simpl. now rewrite Hget.
Qed.

Lemma last_series_cons (p : patient_doc) (docs : list patient_doc) (k : Z) :
  last_series (p :: docs) k =
    match last_series docs k with
    | Some s => Some s
    | None =>
        if patient_matches (ByInternalId k) p
        then option_map series (p_internal_info p)
        else None
    end.
Proof.
  unfold last_series. simpl.
  assert (Hmatch : forall q, In q (filter (patient_matches (ByInternalId k)) docs) ->
                     exists info, p_internal_info q = Some info).
  { intros q Hq. apply filter_In in Hq. destruct Hq as [_ Hq].
    unfold patient_matches in Hq. destruct (p_internal_info q); eauto. discriminate. }
  destruct (patient_matches (ByInternalId k) p) eqn:E; simpl.
  - destruct (rev (filter (patient_matches (ByInternalId k)) docs)) as [|q l] eqn:Er;
      simpl; auto.
    destruct (Hmatch q) as [info Hinfo].
    { apply in_rev. rewrite Er. now left. }
    now rewrite Hinfo.
  - destruct (rev (filter (patient_matches (ByInternalId k)) docs)) as [|q l] eqn:Er;
      simpl; auto.
    destruct (Hmatch q) as [info Hinfo].
    { apply in_rev. rewrite Er. now left. }
    now rewrite Hinfo.
Qed.

Lemma collect_get (docs : list patient_doc) (k : Z) :
  forall d,
    dict_get k
      (fold_left
         (fun patients i =>
            match p_internal_info i with
            | Some info => dict_set (internal_id info) (series info) patients
            | None => patients
            end) docs d)
    = match last_series docs k with
      | Some s => Some s
      | None => dict_get k d
      end.
Proof.
  induction docs as [|p docs IH]; intros d; simpl; auto.
  rewrite IH, last_series_cons.
  destruct (last_series docs k) as [s|]; auto.
  unfold patient_matches.
  destruct (p_internal_info p) as [info|]; simpl; auto.
  rewrite dict_get_set. destruct (internal_id info =? k); reflexivity.
Qed.

Variable db : DB.

(** X23.  The listing is ordered by internal id, each id once: the keys
    of [get_all_patients_patientcoll] are strictly increasing. *)
Theorem listing_is_strictly_sorted :
  StronglySorted Z.lt (map fst (get_all_patients_patientcoll db)).
Proof.
  unfold get_all_patients_patientcoll.
  apply sorted_items_facts. apply collect_keys_NoDup. constructor.
Qed.

(** X24.  What the listing says of a human: the series of the human's
    last patient document in collection order (a human with several
    documents shows only that one), and nothing for an id that no
    document with ["internal_info"] carries. *)
Theorem listing_shows_last_document (k : Z) :
  dict_get k (get_all_patients_patientcoll db) = last_series (patient db) k.
Proof.
  unfold get_all_patients_patientcoll.
  destruct (sorted_items_facts (collect_patients (patient db))) as (_ & _ & Hget).
  { apply collect_keys_NoDup. constructor. }
  rewrite Hget. unfold collect_patients. rewrite collect_get.
  destruct (last_series (patient db) k); reflexivity.
Qed.

End Listing.

(** The listing expected by the suite. *)
Example listing_of_sample :
  get_all_patients_patientcoll sample_db =
    [(663, SStr "SER00302");
     (740, SList ["SER00008"; "SER00009"]);
     (843, SList ["SER00005"; "SER00009"]);
     (850, SStr "SER00002")].
Proof. reflexivity. Qed.

(** ** Entries of a models document *)

Section Entries.

Variable db : DB.
Variable id : Z.
Variable s : series_t.
Variable coll : list models_doc.
Variable p : patient_doc.
Variable m : models_doc.
Hypothesis Hp : get_patient_collection db id s = Ok [p].
Hypothesis Hm : find_one (models_doc_has_id (p_models p)) coll = Some m.

Lemma rewrite_entries_run (f : list model_entry -> list model_entry) :
  rewrite_entries db id s f coll =
    (update_one (models_doc_has_id (p_models p))
       (fun _ => set_md_models (f (md_models m)) m) coll,
     Ok (Some (set_md_models (f (md_models m)) m))).
Proof.
  unfold rewrite_entries. rewrite Hp. simpl. rewrite Hm.
  rewrite (update_one_found _ _ _ Hm).
  rewrite find_one_replaced with (c := m); auto.
  exact (find_one_holds _ _ Hm).
Qed.

Lemma update_one_replace_ids (m' : models_doc) :
  md_id m' = md_id m ->
  map md_id (update_one (models_doc_has_id (p_models p)) (fun _ => m') coll)
  = map md_id coll.
Proof.
  intros Hid. pose proof (find_one_holds _ _ Hm) as Hhas.
  clear Hm. induction coll as [|d l IH]; simpl; auto.
  destruct (models_doc_has_id (p_models p) d) eqn:E; simpl.
  - f_equal. rewrite Hid.
    unfold models_doc_has_id in *. destruct (p_models p); [|discriminate].
    apply N.eqb_eq in E, Hhas. congruence.
  - now rewrite IH.
Qed.

(** X25.  [append_blobs_to_submodel] on a resolved patient: the returned
    models document has the same entries in the same order with their
    timestamps and landmarks; an entry whose timestamp equals the one
    given has the blobs added at the end of its sub-models, every other
    entry keeps its sub-models; the collection keeps its documents' ids. *)
Theorem append_blobs_extends_matching_entries (ts : Q) (blobs : list sub_model) :
  exists coll' m',
    append_blobs_to_submodel db id ts blobs s coll = (coll', Ok (Some m')) /\
    md_id m' = md_id m /\
    map md_id coll' = map md_id coll /\
    Forall2 (fun e e' =>
               timestamp e' = timestamp e /\ landmarks e' = landmarks e /\
               sub_models e' =
                 if Qeq_bool (timestamp e) ts then sub_models e ++ blobs
                 else sub_models e)
            (md_models m) (md_models m').
Proof.
  unfold append_blobs_to_submodel. rewrite rewrite_entries_run.
  eexists _, _. split; [reflexivity|]. split; [reflexivity|].
  split; [now apply update_one_replace_ids|].
  simpl. unfold extend_sub_models.
  induction (md_models m) as [|e l IH]; simpl; constructor; auto.
  destruct (Qeq_bool (timestamp e) ts); auto.
Qed.

Lemma set_md_models_same : set_md_models (md_models m) m = m.
Proof. now destruct m. Qed.

(** X26.  A timestamp that no entry carries is not an error, and neither
    is an empty list of blobs: the call returns the stored document and
    the collection is unchanged. *)
Theorem append_blobs_without_match_changes_nothing (ts : Q) (blobs : list sub_model) :
  Forall (fun e => Qeq_bool (timestamp e) ts = false) (md_models m) \/ blobs = [] ->
  append_blobs_to_submodel db id ts blobs s coll = (coll, Ok (Some m)).
Proof.
  intros Hno. unfold append_blobs_to_submodel. rewrite rewrite_entries_run.
  assert (Hsame : extend_sub_models ts blobs (md_models m) = md_models m).
  { unfold extend_sub_models.
    destruct Hno as [Hno| ->].
    - induction Hno as [|e l He Hl IH]; simpl; auto. now rewrite He, IH.
    - induction (md_models m) as [|e l IH]; simpl; auto.
      rewrite IH, app_nil_r. destruct (Qeq_bool (timestamp e) ts); auto.
      now destruct e. }
  rewrite Hsame, set_md_models_same. now rewrite (update_one_same _ _ Hm).
Qed.

Variable float_of_string : string -> option Q.

(** X27.  [append_landmarks_to_model] on a resolved patient and a file
    that parses: every entry whose timestamp equals the one given gets
    exactly one landmark added at the end, made of the name, the parsed
    points, the description and the spline type; sub-models, timestamps
    and the other entries are unchanged. *)
Theorem append_landmarks_adds_one_landmark
  (ts : Q) (lines : list string) (points : list (list Q))
  (name type_of_spline description : string) :
  fcsv2list float_of_string lines = Ok points ->
  exists coll' m',
    append_landmarks_to_model float_of_string db id ts (Some lines)
      name type_of_spline description s coll = (coll', Ok (Some m')) /\
    md_id m' = md_id m /\
    map md_id coll' = map md_id coll /\
    Forall2 (fun e e' =>
               timestamp e' = timestamp e /\ sub_models e' = sub_models e /\
               landmarks e' =
                 if Qeq_bool (timestamp e) ts
                 then landmarks e ++ [mk_landmark name points description type_of_spline]
                 else landmarks e)
            (md_models m) (md_models m').
Proof.
  intros Hparse. unfold append_landmarks_to_model. rewrite Hparse.
  rewrite rewrite_entries_run.
  eexists _, _. split; [reflexivity|]. split; [reflexivity|].
  split; [now apply update_one_replace_ids|].
  simpl. unfold append_landmark.
  induction (md_models m) as [|e l IH]; simpl; constructor; auto.
  destruct (Qeq_bool (timestamp e) ts); auto.
Qed.

End Entries.

Section FcsvFacts.

Variable float_of_string : string -> option Q.

Lemma floats_length (fields : list string) (qs : list Q) :
  floats float_of_string fields = Ok qs -> List.length qs = List.length fields.
Proof.
  revert qs. induction fields as [|i fields IH]; simpl; intros qs.
  - now intros [= <-].
  - destruct (float_of_string i) as [q|]; [|discriminate].
    destruct (floats float_of_string fields) as [r|e]; [|discriminate].
    intros [= <-]. simpl. f_equal. now apply IH.
Qed.

(** X28.  A returning [fcsv2list] gives one point per line that starts
    with a digit, in order, and no point has more than three coordinates:
    a point has as many as the line has fields after the first, up to
    three (a short line gives a short point, not an error). *)
Theorem fcsv2list_one_point_per_digit_line (lines : list string) :
  forall points,
    fcsv2list float_of_string lines = Ok points ->
    Forall2 (fun x point =>
               List.length point
                 = Nat.min 3 (List.length (split_comma x) - 1))
            (filter starts_with_digit lines) points.
Proof.
  induction lines as [|x lines IH]; intros points.
  - simpl. intros [= <-]. constructor.
  - destruct x as [|c x']; [simpl; discriminate|].
    cbn [fcsv2list filter starts_with_digit].
    destruct (is_digit c) eqn:Ed.
    + destruct (floats float_of_string
                  (firstn 3 (skipn 1 (split_comma (String c x'))))) as [pt|e] eqn:Ef;
        [|discriminate].
      destruct (fcsv2list float_of_string lines) as [rest|e]; [|discriminate].
      intros [= <-]. constructor; auto.
      apply floats_length in Ef. rewrite Ef, length_firstn, length_skipn. reflexivity.
    + apply IH.
Qed.

End FcsvFacts.

Lemma append_blobs_extends_matching_entries_witness :
  exists coll' m',
    append_blobs_to_submodel modelled_db 850 (9 # 10)
      [mk_sub_model "sternum.stl" "Sternum"] SNone sample_entries
      = (coll', Ok (Some m')) /\
    md_id m' = 50%N /\
    map md_id coll' = map md_id sample_entries /\
    Forall2 (fun e e' =>
               timestamp e' = timestamp e /\ landmarks e' = landmarks e /\
               sub_models e' =
                 if Qeq_bool (timestamp e) (9 # 10)
                 then sub_models e ++ [mk_sub_model "sternum.stl" "Sternum"]
                 else sub_models e)
            [mk_model_entry (0 # 1) [mk_sub_model "aorta.stl" "Aorta"] [];
             mk_model_entry (9 # 10) [] []]
            (md_models m').
Proof.
  apply (@append_blobs_extends_matching_entries modelled_db 850 SNone sample_entries
           (mk_patient 1%N (Some (mk_internal_info 850 (SStr "SER00002")))
              (Some (NInt 46)) None (Some (NInt 160)) (Some (NInt 44)) None None None
              (Some 50%N) None)
           (mk_models_doc 50%N
              [mk_model_entry (0 # 1) [mk_sub_model "aorta.stl" "Aorta"] [];
               mk_model_entry (9 # 10) [] []])
           eq_refl eq_refl (9 # 10) [mk_sub_model "sternum.stl" "Sternum"]).
Defined.

Lemma append_blobs_without_match_changes_nothing_witness :
  append_blobs_to_submodel modelled_db 850 (5 # 1)
    [mk_sub_model "sternum.stl" "Sternum"] SNone sample_entries
  = (sample_entries,
     Ok (Some (mk_models_doc 50%N
                 [mk_model_entry (0 # 1) [mk_sub_model "aorta.stl" "Aorta"] [];
                  mk_model_entry (9 # 10) [] []]))).
Proof.
  apply (@append_blobs_without_match_changes_nothing modelled_db 850 SNone
           sample_entries
           (mk_patient 1%N (Some (mk_internal_info 850 (SStr "SER00002")))
              (Some (NInt 46)) None (Some (NInt 160)) (Some (NInt 44)) None None None
              (Some 50%N) None)
           (mk_models_doc 50%N
              [mk_model_entry (0 # 1) [mk_sub_model "aorta.stl" "Aorta"] [];
               mk_model_entry (9 # 10) [] []])
           eq_refl eq_refl (5 # 1) [mk_sub_model "sternum.stl" "Sternum"]).
  left. repeat constructor.
Defined.

Lemma append_landmarks_adds_one_landmark_witness :
  exists coll' m',
    append_landmarks_to_model sample_float modelled_db 850 (0 # 1)
      (Some ["# Markups fiducial file"; "1,1.5,2,1.5,0"])
      "LV Apex" "marker_point" "LV Apex" SNone sample_entries
      = (coll', Ok (Some m')) /\
    md_id m' = 50%N /\
    map md_id coll' = map md_id sample_entries /\
    Forall2 (fun e e' =>
               timestamp e' = timestamp e /\ sub_models e' = sub_models e /\
               landmarks e' =
                 if Qeq_bool (timestamp e) (0 # 1)
                 then landmarks e ++
                      [mk_landmark "LV Apex" [[3 # 2; 2 # 1; 3 # 2]] "LV Apex"
                         "marker_point"]
                 else landmarks e)
            [mk_model_entry (0 # 1) [mk_sub_model "aorta.stl" "Aorta"] [];
             mk_model_entry (9 # 10) [] []]
            (md_models m').
Proof.
  apply (@append_landmarks_adds_one_landmark modelled_db 850 SNone sample_entries
           (mk_patient 1%N (Some (mk_internal_info 850 (SStr "SER00002")))
              (Some (NInt 46)) None (Some (NInt 160)) (Some (NInt 44)) None None None
              (Some 50%N) None)
           (mk_models_doc 50%N
              [mk_model_entry (0 # 1) [mk_sub_model "aorta.stl" "Aorta"] [];
               mk_model_entry (9 # 10) [] []])
           eq_refl eq_refl sample_float (0 # 1)
           ["# Markups fiducial file"; "1,1.5,2,1.5,0"] [[3 # 2; 2 # 1; 3 # 2]]
           "LV Apex" "marker_point" "LV Apex").
  reflexivity.
Defined.

Lemma fcsv2list_one_point_per_digit_line_witness :
  Forall2 (fun x point =>
             List.length point = Nat.min 3 (List.length (split_comma x) - 1))
          (filter starts_with_digit ["# columns = id,x,y,z"; "1,1.5,2,1.5,0"; "2,2"])
          [[3 # 2; 2 # 1; 3 # 2]; [2 # 1]].
Proof.
  apply (@fcsv2list_one_point_per_digit_line sample_float
           ["# columns = id,x,y,z"; "1,1.5,2,1.5,0"; "2,2"]
           [[3 # 2; 2 # 1; 3 # 2]; [2 # 1]]).
  reflexivity.
Defined.
